(** * Satoyama dog-run backend

    A shallow embedding of the request handlers ([main.py]), the token and
    identity helpers ([auth.py]), the mapped classes ([models.py]) and the
    utility functions ([utils.py]), followed by the properties the written
    specification states about them. *)

From Stdlib Require Import ZArith List String Ascii Bool Lia.
From Stdlib Require Import Decimal DecimalString DecimalZ DecimalPos.
From Stdlib Require Import QArith_base.
Import ListNotations.
Local Open Scope string_scope.
Local Open Scope Z_scope.
#[local] Set Warnings "-register-all".

(** ** Python values, exceptions and results *)

(** The values that travel through keyword arguments, token claims and
    response bodies. *)
Inductive value :=
| VNone
| VStr (s : string)
| VInt (z : Z)
| VBool (b : bool)
| VDateTime (t : Z)
| VStrList (l : list string).

(** The exceptions the modelled code can raise.  [HTTPException] is FastAPI's;
    [TypeError] is Python's; [OperationalError] stands for any failure the
    storage engine reports at flush or commit; [ResponseValidationError] is
    what FastAPI raises when a returned body does not fit [response_model];
    [ValidationError] is pydantic's; [SyntaxError], [ValueError] and
    [KeyError] are Python's. *)
Inductive exn :=
| HTTPException (status_code : Z) (detail : string)
| TypeError (msg : string)
| OperationalError
| InvalidRequestError
| ResponseValidationError (missing : string)
| ValidationError (model : string)
| SyntaxError
| ValueError
| KeyError.

Inductive result (A : Type) :=
| Ok (a : A)
| Raise (e : exn).
Arguments Ok {A} a.
Arguments Raise {A} e.

Definition option_eqb {A} (eqb : A -> A -> bool) (x y : option A) : bool :=
  match x, y with
  | Some a, Some b => eqb a b
  | None, None => true
  | _, _ => false
  end.

(** Association lists with Python's [dict] update: an existing key keeps its
    place and takes the new value, a new key goes to the end. *)
Fixpoint dict_set {V} (d : list (string * V)) (k : string) (v : V)
  : list (string * V) :=
  match d with
  | [] => [(k, v)]
  | (k', v') :: d' =>
      if String.eqb k' k then (k, v) :: d' else (k', v') :: dict_set d' k v
  end.

Fixpoint dict_get {V} (d : list (string * V)) (k : string) : option V :=
  match d with
  | [] => None
  | (k', v') :: d' => if String.eqb k' k then Some v' else dict_get d' k
  end.

Definition as_str (v : option value) : option string :=
  match v with Some (VStr s) => Some s | _ => None end.

Definition as_int (v : option value) : option Z :=
  match v with Some (VInt z) => Some z | _ => None end.

Definition as_strlist (v : option value) : option (list string) :=
  match v with Some (VStrList l) => Some l | _ => None end.

(** ** models.py: the mapped classes *)

Module Models.

(** A row of [users].  Columns declared as plain [Column(String)] are
    nullable; [id] is the primary key and the two timestamps carry a
    [default], so they always hold a value. *)
Record User := mkUser {
  User_id : Z;
  User_email : option string;
  User_hashed_password : option string;
  User_full_name : option string;
  User_address : option string;
  User_phone_number : option string;
  User_imabari_residency : option string;
  User_created_at : Z;
  User_updated_at : Z
}.

Record Dog := mkDog {
  Dog_id : Z;
  Dog_name : option string;
  Dog_breed : option string;
  Dog_weight : option string;
  Dog_personality : option (list string);
  Dog_last_vaccination_date : option string;
  Dog_owner_id : option Z;
  Dog_created_at : Z;
  Dog_updated_at : Z
}.

Record Post := mkPost {
  Post_id : Z;
  Post_content : option string;
  Post_tag : option string;
  Post_hashtags : option string;
  Post_likes : Z;
  Post_user_id : option Z;
  Post_created_at : Z;
  Post_updated_at : Z
}.

(** The names [hasattr] finds on each class: its columns and relationships.
    (The attributes every declarative class inherits, such as [metadata], are
    never used as keywords by the handlers.) *)
Definition User_attributes : list string :=
  ["id"; "email"; "hashed_password"; "full_name"; "address"; "phone_number";
   "imabari_residency"; "created_at"; "updated_at"; "dogs"; "posts";
   "comments"].

Definition Dog_attributes : list string :=
  ["id"; "name"; "breed"; "weight"; "personality"; "last_vaccination_date";
   "owner_id"; "created_at"; "updated_at"; "owner"].

Definition Post_attributes : list string :=
  ["id"; "content"; "tag"; "hashtags"; "likes"; "user_id"; "created_at";
   "updated_at"; "user"; "comments"].

(** A transient instance: the attributes set on it so far. *)
Definition instance := list (string * value).

(** The constructor [declarative_base()] gives every mapped class: each
    keyword must name an attribute of the class, otherwise [TypeError]; the
    accepted ones are set in order. *)
Fixpoint declarative_constructor (cls_name : string) (attributes : list string)
    (kwargs : list (string * value)) (self : instance) : result instance :=
  match kwargs with
  | [] => Ok self
  | (k, v) :: kwargs' =>
      if existsb (String.eqb k) attributes
      then declarative_constructor cls_name attributes kwargs' (dict_set self k v)
      else Raise (TypeError ("'" ++ k ++ "' is an invalid keyword argument for "
                             ++ cls_name))
  end.

Definition User_new (kwargs : list (string * value)) : result instance :=
  declarative_constructor "User" User_attributes kwargs [].

Definition Dog_new (kwargs : list (string * value)) : result instance :=
  declarative_constructor "Dog" Dog_attributes kwargs [].

(** Attribute assignment on a loaded row. *)
Definition User_setattr (u : User) (k : string) (v : value) : User :=
  if String.eqb k "email" then
    mkUser (User_id u) (as_str (Some v)) (User_hashed_password u) (User_full_name u)
      (User_address u) (User_phone_number u) (User_imabari_residency u)
      (User_created_at u) (User_updated_at u)
  else if String.eqb k "hashed_password" then
    mkUser (User_id u) (User_email u) (as_str (Some v)) (User_full_name u)
      (User_address u) (User_phone_number u) (User_imabari_residency u)
      (User_created_at u) (User_updated_at u)
  else if String.eqb k "full_name" then
    mkUser (User_id u) (User_email u) (User_hashed_password u) (as_str (Some v))
      (User_address u) (User_phone_number u) (User_imabari_residency u)
      (User_created_at u) (User_updated_at u)
  else if String.eqb k "address" then
    mkUser (User_id u) (User_email u) (User_hashed_password u) (User_full_name u)
      (as_str (Some v)) (User_phone_number u) (User_imabari_residency u)
      (User_created_at u) (User_updated_at u)
  else if String.eqb k "phone_number" then
    mkUser (User_id u) (User_email u) (User_hashed_password u) (User_full_name u)
      (User_address u) (as_str (Some v)) (User_imabari_residency u)
      (User_created_at u) (User_updated_at u)
  else if String.eqb k "imabari_residency" then
    mkUser (User_id u) (User_email u) (User_hashed_password u) (User_full_name u)
      (User_address u) (User_phone_number u) (as_str (Some v))
      (User_created_at u) (User_updated_at u)
  else u.

Definition Post_setattr (p : Post) (k : string) (v : value) : Post :=
  if String.eqb k "likes" then
    match v with
    | VInt z =>
        mkPost (Post_id p) (Post_content p) (Post_tag p) (Post_hashtags p) z
          (Post_user_id p) (Post_created_at p) (Post_updated_at p)
    | _ => p
    end
  else p.

Definition User_touch (now : Z) (u : User) : User :=
  mkUser (User_id u) (User_email u) (User_hashed_password u) (User_full_name u)
    (User_address u) (User_phone_number u) (User_imabari_residency u)
    (User_created_at u) now.

Definition Post_touch (now : Z) (p : Post) : Post :=
  mkPost (Post_id p) (Post_content p) (Post_tag p) (Post_hashtags p)
    (Post_likes p) (Post_user_id p) (Post_created_at p) now.

Definition User_eqb (a b : User) : bool :=
  (User_id a =? User_id b)
  && option_eqb String.eqb (User_email a) (User_email b)
  && option_eqb String.eqb (User_hashed_password a) (User_hashed_password b)
  && option_eqb String.eqb (User_full_name a) (User_full_name b)
  && option_eqb String.eqb (User_address a) (User_address b)
  && option_eqb String.eqb (User_phone_number a) (User_phone_number b)
  && option_eqb String.eqb (User_imabari_residency a) (User_imabari_residency b)
  && (User_created_at a =? User_created_at b)
  && (User_updated_at a =? User_updated_at b).

Definition Post_eqb (a b : Post) : bool :=
  (Post_id a =? Post_id b)
  && option_eqb String.eqb (Post_content a) (Post_content b)
  && option_eqb String.eqb (Post_tag a) (Post_tag b)
  && option_eqb String.eqb (Post_hashtags a) (Post_hashtags b)
  && (Post_likes a =? Post_likes b)
  && option_eqb Z.eqb (Post_user_id a) (Post_user_id b)
  && (Post_created_at a =? Post_created_at b)
  && (Post_updated_at a =? Post_updated_at b).

(** The row an INSERT of a transient instance produces: the primary key is
    assigned by the engine, unset columns are NULL, and the columns with a
    [default] the instance leaves unset take it. *)
Definition User_row (pk now : Z) (i : instance) : User :=
  mkUser pk (as_str (dict_get i "email")) (as_str (dict_get i "hashed_password"))
    (as_str (dict_get i "full_name")) (as_str (dict_get i "address"))
    (as_str (dict_get i "phone_number")) (as_str (dict_get i "imabari_residency"))
    now now.

Definition Dog_row (pk now : Z) (i : instance) : Dog :=
  mkDog pk (as_str (dict_get i "name")) (as_str (dict_get i "breed"))
    (as_str (dict_get i "weight")) (as_strlist (dict_get i "personality"))
    (as_str (dict_get i "last_vaccination_date")) (as_int (dict_get i "owner_id"))
    now now.

End Models.
Import Models.

(** ** The storage collaborator: one session over the committed rows *)

Module Session.

Record Database := mkDatabase {
  users : list User;
  dogs : list Dog;
  posts : list Post
}.

(** What a session holds between two commits: the transient instances given
    to [db.add], and the attribute assignments made on loaded rows. *)
Inductive pending :=
| InsertUser (handle : nat) (i : instance)
| InsertDog (handle : nat) (i : instance)
| SetUserAttr (pk : Z) (attr : string) (v : value)
| SetPostAttr (pk : Z) (attr : string) (v : value).

(** A Python object the session knows: either one passed to [db.add] (it
    receives its primary key when it is flushed) or a row loaded by a query. *)
Inductive ref :=
| New (handle : nat)
| Persistent (pk : Z).

(** The state a handler runs in.  [store] is the committed content of the
    database; [faults] says, for each commit to come, whether the engine
    fails it ([true]); [clock] is the reading of [datetime.utcnow()] and
    [datetime.now()] during the request. *)
Record World := mkWorld {
  store : Database;
  session : list pending;
  identity : list (nat * Z);
  next_handle : nat;
  faults : list bool;
  clock : Z
}.

Definition M (A : Type) : Type := World -> result A * World.

Definition ret {A} (a : A) : M A := fun w => (Ok a, w).

Definition raise {A} (e : exn) : M A := fun w => (Raise e, w).

Definition lift {A} (r : result A) : M A := fun w => (r, w).

Definition bind {A B} (m : M A) (k : A -> M B) : M B :=
  fun w =>
    match m w with
    | (Ok a, w') => k a w'
    | (Raise e, w') => (Raise e, w')
    end.

Notation "x <- m ;; k" := (bind m (fun x => k))
  (at level 61, m at next level, right associativity).
Notation "m ;;; k" := (bind m (fun _ => k))
  (at level 61, right associativity).

Definition utcnow : M Z := fun w => (Ok (clock w), w).

(** The filter [User.email == email]; a NULL address equals nothing. *)
Definition email_is (email : string) (u : User) : bool :=
  option_eqb String.eqb (User_email u) (Some email).

(** [db.query(User).filter(p).first()] *)
Definition db_query_user_first (p : User -> bool) : M (option User) :=
  fun w => (Ok (find p (users (store w))), w).

(** [db.query(Post).filter(p).first()] *)
Definition db_query_post_first (p : Post -> bool) : M (option Post) :=
  fun w => (Ok (find p (posts (store w))), w).

Definition enqueue (op : pending) (w : World) : World :=
  mkWorld (store w) (session w ++ [op]) (identity w) (next_handle w)
    (faults w) (clock w).

(** [db.add(obj)] for a new [User] and a new [Dog]. *)
Definition db_add_user (i : instance) : M ref :=
  fun w =>
    let h := next_handle w in
    let w' := enqueue (InsertUser h i) w in
    (Ok (New h),
     mkWorld (store w') (session w') (identity w') (S h) (faults w') (clock w')).

Definition db_add_dog (i : instance) : M ref :=
  fun w =>
    let h := next_handle w in
    let w' := enqueue (InsertDog h i) w in
    (Ok (New h),
     mkWorld (store w') (session w') (identity w') (S h) (faults w') (clock w')).

(** [obj.attr = v] on a loaded row. *)
Definition user_setattr (u : User) (attr : string) (v : value) : M unit :=
  fun w => (Ok tt, enqueue (SetUserAttr (User_id u) attr v) w).

Definition post_setattr (p : Post) (attr : string) (v : value) : M unit :=
  fun w => (Ok tt, enqueue (SetPostAttr (Post_id p) attr v) w).

(** The primary key the engine gives the next row of a table. *)
Definition next_pk (pks : list Z) : Z := 1 + fold_right Z.max 0 pks.

Fixpoint user_assignments (pk : Z) (ops : list pending) : list (string * value) :=
  match ops with
  | [] => []
  | SetUserAttr pk' k v :: ops' =>
      if pk' =? pk then (k, v) :: user_assignments pk ops'
      else user_assignments pk ops'
  | _ :: ops' => user_assignments pk ops'
  end.

Fixpoint post_assignments (pk : Z) (ops : list pending) : list (string * value) :=
  match ops with
  | [] => []
  | SetPostAttr pk' k v :: ops' =>
      if pk' =? pk then (k, v) :: post_assignments pk ops'
      else post_assignments pk ops'
  | _ :: ops' => post_assignments pk ops'
  end.

(** The UPDATE a flush emits for a loaded row: the assigned attributes take
    their new values and, when that changes the row at all, [updated_at]
    takes its [onupdate] value; a row no assignment changes is not written. *)
Definition flush_user (now : Z) (ops : list pending) (u : User) : User :=
  let u' := fold_left (fun acc kv => User_setattr acc (fst kv) (snd kv))
                      (user_assignments (User_id u) ops) u in
  if User_eqb u u' then u else User_touch now u'.

Definition flush_post (now : Z) (ops : list pending) (p : Post) : Post :=
  let p' := fold_left (fun acc kv => Post_setattr acc (fst kv) (snd kv))
                      (post_assignments (Post_id p) ops) p in
  if Post_eqb p p' then p else Post_touch now p'.

(** The INSERTs of a flush, in the order of [db.add]. *)
Fixpoint flush_inserts (now : Z) (ops : list pending)
    (st : Database * list (nat * Z)) : Database * list (nat * Z) :=
  match ops with
  | [] => st
  | InsertUser h i :: ops' =>
      let db := fst st in
      let pk := next_pk (map User_id (users db)) in
      flush_inserts now ops'
        (mkDatabase (users db ++ [User_row pk now i]) (dogs db) (posts db),
         (h, pk) :: snd st)
  | InsertDog h i :: ops' =>
      let db := fst st in
      let pk := next_pk (map Dog_id (dogs db)) in
      flush_inserts now ops'
        (mkDatabase (users db) (dogs db ++ [Dog_row pk now i]) (posts db),
         (h, pk) :: snd st)
  | _ :: ops' => flush_inserts now ops' st
  end.

Definition flush (now : Z) (ops : list pending)
    (st : Database * list (nat * Z)) : Database * list (nat * Z) :=
  let db := fst st in
  flush_inserts now ops
    (mkDatabase (map (flush_user now ops) (users db)) (dogs db)
                (map (flush_post now ops) (posts db)),
     snd st).

(** [db.commit()]: flush the session and commit.  When the engine fails, the
    transaction is rolled back, nothing of it reaches [store], and the
    exception propagates. *)
Definition db_commit : M unit :=
  fun w =>
    match faults w with
    | true :: fs =>
        (Raise OperationalError,
         mkWorld (store w) [] (identity w) (next_handle w) fs (clock w))
    | _ =>
        let st := flush (clock w) (session w) (store w, identity w) in
        (Ok tt,
         mkWorld (fst st) [] (snd st) (next_handle w) (tl (faults w)) (clock w))
    end.

Fixpoint handle_pk (h : nat) (idm : list (nat * Z)) : option Z :=
  match idm with
  | [] => None
  | (h', pk) :: idm' => if Nat.eqb h' h then Some pk else handle_pk h idm'
  end.

Definition ref_pk (r : ref) (w : World) : option Z :=
  match r with
  | New h => handle_pk h (identity w)
  | Persistent pk => Some pk
  end.

(** [db.refresh(obj)]: load the row of the object again. *)
Definition db_refresh_user (r : ref) : M User :=
  fun w =>
    match ref_pk r w with
    | Some pk =>
        match find (fun u => User_id u =? pk) (users (store w)) with
        | Some u => (Ok u, w)
        | None => (Raise InvalidRequestError, w)
        end
    | None => (Raise InvalidRequestError, w)
    end.

Definition db_refresh_dog (r : ref) : M Dog :=
  fun w =>
    match ref_pk r w with
    | Some pk =>
        match find (fun d => Dog_id d =? pk) (dogs (store w)) with
        | Some d => (Ok d, w)
        | None => (Raise InvalidRequestError, w)
        end
    | None => (Raise InvalidRequestError, w)
    end.

(** A request starts with a fresh session ([get_db]). *)
Definition request_world (db : Database) (fs : list bool) (now : Z) : World :=
  mkWorld db [] [] 0%nat fs now.

End Session.
Import Session.

(** ** exceptions.py: the status each error kind maps to *)

Module Exceptions.

Definition ValidationError_status : Z := 400.
Definition AuthenticationError_status : Z := 401.
Definition AuthorizationError_status : Z := 403.
Definition NotFoundError_status : Z := 404.
Definition ConflictError_status : Z := 409.
Definition DatabaseError_status : Z := 500.
Definition FileUploadError_status : Z := 400.

End Exceptions.

(** ** schemas.py and the response models of models.py *)

Record LoginRequest := mkLoginRequest {
  login_email : string;
  login_password : string
}.

Record RegisterRequest := mkRegisterRequest {
  reg_email : string;
  reg_password : string;
  reg_full_name : string;
  reg_address : string;
  reg_phone_number : string;
  reg_imabari_residency : string;
  reg_application_date : string;
  reg_dog_name : string;
  reg_dog_breed : string;
  reg_dog_weight : string;
  reg_dog_birth_year : Z
}.

Record UpdateUserProfileRequest := mkUpdateUserProfileRequest {
  upd_full_name : string;
  upd_address : string;
  upd_phone_number : string;
  upd_imabari_residency : string
}.

(** A response body: the JSON object sent back. *)
Definition body := list (string * value).

Definition UserResponse_fields : list string :=
  ["email"; "full_name"; "address"; "phone_number"; "imabari_residency"; "id";
   "created_at"].

(** [UserResponse.from_orm(u)]: every field of the model is required, so a
    NULL column is a validation error.  The password hash is not a field. *)
Definition UserResponse_from_orm (u : User) : result body :=
  match User_email u, User_full_name u, User_address u, User_phone_number u,
        User_imabari_residency u with
  | Some e, Some f, Some a, Some p, Some r =>
      Ok [("email", VStr e); ("full_name", VStr f); ("address", VStr a);
          ("phone_number", VStr p); ("imabari_residency", VStr r);
          ("id", VInt (User_id u)); ("created_at", VDateTime (User_created_at u))]
  | _, _, _, _, _ => Raise (ValidationError "UserResponse")
  end.

(** What [response_model=...] does to a returned dict: every field of the
    model must be there, and only the model's fields are sent. *)
Definition response_model (fields : list string) (b : body) : result body :=
  match find (fun f => match dict_get b f with None => true | Some _ => false end)
             fields with
  | Some f => Raise (ResponseValidationError f)
  | None =>
      Ok (map (fun f => (f, match dict_get b f with Some v => v | None => VNone end))
              fields)
  end.

(** ** auth.py and main.py *)

Definition ALGORITHM : string := "HS256".
Definition ACCESS_TOKEN_EXPIRE_MINUTES : Z := 30.

(** Durations and instants are counted in microseconds. *)
Definition timedelta_minutes (m : Z) : Z := m * 60 * 1000000.

(** The secrets the [bcrypt] context of passlib refuses to hash: one of more
    than 4096 characters ([PasswordSizeError]) and one that holds a NUL
    ([PasswordValueError]); both exceptions are [ValueError]s.  A string is
    the UTF-8 form of the text, so its characters are the bytes that are no
    continuation bytes. *)
Definition MAX_PASSWORD_SIZE : Z := 4096.

Fixpoint utf8_length (s : string) : Z :=
  match s with
  | EmptyString => 0
  | String c r =>
      let n := N_of_ascii c in
      if ((128 <=? n) && (n <? 192))%N then utf8_length r
      else 1 + utf8_length r
  end.

Fixpoint has_nul (s : string) : bool :=
  match s with
  | EmptyString => false
  | String c r => (N_of_ascii c =? 0)%N || has_nul r
  end.

Definition secret_refused (secret : string) : bool :=
  (MAX_PASSWORD_SIZE <? utf8_length secret) || has_nul secret.

Section Application.

(** The collaborators the code delegates to: the [bcrypt] context of passlib
    ([pwd_context_hash] is the digest of a secret it accepts;
    [pwd_context_verify] returns a boolean or raises, as it does for a secret
    it refuses and for a stored value it cannot read as a hash), the encoder
    and decoder of python-jose (the decoder is given the current time,
    against which it checks [exp]; [None] is a [JWTError]), and the signing
    key read from the environment. *)
Variable pwd_context_hash : string -> string.
Variable pwd_context_verify : string -> option string -> result bool.
Variable jwt_encode : list (string * value) -> string -> string -> string.
Variable jwt_decode :
  string -> string -> list string -> Z -> option (list (string * value)).
Variable SECRET_KEY : string.

Definition verify_password (plain_password : string)
    (hashed_password : option string) : result bool :=
  pwd_context_verify plain_password hashed_password.

Definition get_password_hash (password : string) : result string :=
  if secret_refused password then Raise ValueError
  else Ok (pwd_context_hash password).

(** [expires_delta] is tested for truth: [None] and a zero [timedelta] both
    take the default branch. *)
Definition create_access_token (data : list (string * value))
    (expires_delta : option Z) (now : Z) : string :=
  let to_encode := data in
  let expire :=
    match expires_delta with
    | Some d => if d =? 0 then now + timedelta_minutes 15 else now + d
    | None => now + timedelta_minutes 15
    end in
  let to_encode := dict_set to_encode "exp" (VDateTime expire) in
  jwt_encode to_encode SECRET_KEY ALGORITHM.

Definition verify_token (token : string) (now : Z) : option value :=
  match jwt_decode token SECRET_KEY [ALGORITHM] now with
  | Some payload =>
      match dict_get payload "sub" with
      | None | Some VNone => None
      | Some email => Some email
      end
  | None => None
  end.

(** [get_current_user] as auth.py defines it: the test user is looked up by a
    fixed address and created when absent. *)
Definition get_current_user : M User :=
  user <- db_query_user_first (email_is "test@example.com") ;;
  match user with
  | Some user => ret user
  | None =>
      hashed_password <- lift (get_password_hash "testpassword") ;;
      now <- utcnow ;;
      user <- lift (User_new
        [("email", VStr "test@example.com");
         ("hashed_password", VStr hashed_password);
         ("user_name", VStr "テストユーザー");
         ("owner_name", VStr "テストオーナー");
         ("dog_name", VStr "テスト犬");
         ("dog_breed", VStr "ミックス");
         ("dog_gender", VStr "不明");
         ("dog_age", VStr "1");
         ("owner_tel", VStr "09012345678");
         ("owner_address", VStr "テスト県テスト市");
         ("registration_date", VDateTime now);
         ("is_approved", VBool true);
         ("is_admin", VBool false)]) ;;
      user <- db_add_user user ;;
      db_commit ;;;
      db_refresh_user user
  end.

(** The definition auth.py keeps in a comment above the active one: the
    bearer credentials are verified and the subject is looked up. *)
Definition get_current_user_commented (credentials : string) : M User :=
  let credentials_exception := HTTPException 401 "認証に失敗しました" in
  now <- utcnow ;;
  match verify_token credentials now with
  | None => raise credentials_exception
  | Some email =>
      user <- db_query_user_first
                (fun u => match email with
                          | VStr e => email_is e u
                          | _ => false
                          end) ;;
      match user with
      | None => raise credentials_exception
      | Some user => ret user
      end
  end.

(** The handlers.  [authorization] is the bearer token of the request; no
    parameter of a handler or of its dependencies is bound to it. *)

Definition register (request : RegisterRequest) : M body :=
  existing_user <- db_query_user_first (email_is (reg_email request)) ;;
  match existing_user with
  | Some _ =>
      raise (HTTPException 400 "このメールアドレスは既に登録されています")
  | None =>
      hashed_password <- lift (get_password_hash (reg_password request)) ;;
      user <- lift (User_new
        [("email", VStr (reg_email request));
         ("hashed_password", VStr hashed_password);
         ("full_name", VStr (reg_full_name request));
         ("address", VStr (reg_address request));
         ("phone_number", VStr (reg_phone_number request));
         ("imabari_residency", VStr (reg_imabari_residency request));
         ("application_date", VStr (reg_application_date request))]) ;;
      user <- db_add_user user ;;
      db_commit ;;;
      user <- db_refresh_user user ;;
      dog <- lift (Dog_new
        [("name", VStr (reg_dog_name request));
         ("breed", VStr (reg_dog_breed request));
         ("weight", VStr (reg_dog_weight request));
         ("birth_year", VInt (reg_dog_birth_year request));
         ("owner_id", VInt (User_id user))]) ;;
      dog <- db_add_dog dog ;;
      db_commit ;;;
      _ <- db_refresh_dog dog ;;
      now <- utcnow ;;
      let sub := match User_email user with Some e => VStr e | None => VNone end in
      let access_token := create_access_token [("sub", sub)] None now in
      lift (response_model UserResponse_fields
              [("access_token", VStr access_token); ("token_type", VStr "bearer")])
  end.

Definition login (request : LoginRequest) : M body :=
  user <- db_query_user_first (email_is (login_email request)) ;;
  match user with
  | None =>
      raise (HTTPException 401 "メールアドレスまたはパスワードが正しくありません")
  | Some user =>
      verified <- lift (verify_password (login_password request)
                          (User_hashed_password user)) ;;
      if negb verified
      then raise (HTTPException 401 "メールアドレスまたはパスワードが正しくありません")
      else
        now <- utcnow ;;
        let sub := match User_email user with Some e => VStr e | None => VNone end in
        let access_token := create_access_token [("sub", sub)] None now in
        ret [("access_token", VStr access_token); ("token_type", VStr "bearer")]
  end.

Definition get_current_user_info (authorization : option string) : M body :=
  current_user <- get_current_user ;;
  lift (UserResponse_from_orm current_user).

Definition update_user_profile (authorization : option string)
    (request : UpdateUserProfileRequest) : M body :=
  current_user <- get_current_user ;;
  user_setattr current_user "full_name" (VStr (upd_full_name request)) ;;;
  user_setattr current_user "address" (VStr (upd_address request)) ;;;
  user_setattr current_user "phone_number" (VStr (upd_phone_number request)) ;;;
  user_setattr current_user "imabari_residency"
    (VStr (upd_imabari_residency request)) ;;;
  db_commit ;;;
  current_user <- db_refresh_user (Persistent (User_id current_user)) ;;
  lift (UserResponse_from_orm current_user).

Definition like_post (authorization : option string) (post_id : Z) : M body :=
  current_user <- get_current_user ;;
  post <- db_query_post_first (fun p => Post_id p =? post_id) ;;
  match post with
  | None => raise (HTTPException 404 "投稿が見つかりません")
  | Some post =>
      post_setattr post "likes" (VInt (Post_likes post + 1)) ;;;
      db_commit ;;;
      ret [("message", VStr "いいねしました")]
  end.

(** When [login] refuses a request: no stored user has the address, or the
    verification of the password against the stored hash returns [False]. *)
Definition login_refused (request : LoginRequest) (w : World) : Prop :=
  find (email_is (login_email request)) (users (store w)) = None
  \/ exists u, find (email_is (login_email request)) (users (store w)) = Some u
               /\ verify_password (login_password request)
                    (User_hashed_password u) = Ok false.

(** The store after one like on [db] that the engine commits. *)
Definition after_like (authorization : option string) (post_id now : Z)
    (db : Database) : Database :=
  store (snd (like_post authorization post_id (request_world db [] now))).

End Application.

(** ** Vocabulary of the properties *)

(** The like count of the post with a given identifier. *)
Definition likes_of (db : Database) (post_id : Z) : option Z :=
  option_map Post_likes (find (fun p => Post_id p =? post_id) (posts db)).

(** The engine commits the next [db.commit()]. *)
Definition commit_succeeds (fs : list bool) : Prop := hd false fs = false.

(** A post after a committed like on [post_id]. *)
Definition liked (post_id now : Z) (p : Post) : Post :=
  if Post_id p =? post_id
  then mkPost (Post_id p) (Post_content p) (Post_tag p) (Post_hashtags p)
         (Post_likes p + 1) (Post_user_id p) (Post_created_at p) now
  else p.

(** The assignments [update_user_profile] makes on the row of the caller. *)
Definition profile_assignments (pk : Z) (request : UpdateUserProfileRequest)
  : list pending :=
  [SetUserAttr pk "full_name" (VStr (upd_full_name request));
   SetUserAttr pk "address" (VStr (upd_address request));
   SetUserAttr pk "phone_number" (VStr (upd_phone_number request));
   SetUserAttr pk "imabari_residency" (VStr (upd_imabari_residency request))].

(** How a profile update may change a user row [x] into [x']: the identity
    columns stay, [updated_at] stays or takes the time of the commit, a row
    other than the caller's ([pk]) stays whole, and once the update is
    committed the caller's row holds the values of the request. *)
Definition profile_frame (request : UpdateUserProfileRequest) (pk now : Z)
    (committed : Prop) (x x' : User) : Prop :=
  User_id x' = User_id x
  /\ User_email x' = User_email x
  /\ User_hashed_password x' = User_hashed_password x
  /\ User_created_at x' = User_created_at x
  /\ (User_updated_at x' = User_updated_at x \/ User_updated_at x' = now)
  /\ (User_id x <> pk -> x' = x)
  /\ (User_id x = pk -> committed ->
      User_full_name x' = Some (upd_full_name request)
      /\ User_address x' = Some (upd_address request)
      /\ User_phone_number x' = Some (upd_phone_number request)
      /\ User_imabari_residency x' = Some (upd_imabari_residency request)).

(** ** utils.py: the entry-payload codec *)

Module Utils.

(** What a modelled function does on an input: it returns, it raises, or the
    input leaves the part of Python the model covers. *)
Inductive outcome (A : Type) :=
| Returns (a : A)
| Raises (e : exn)
| Unmodelled.
Arguments Returns {A} a.
Arguments Raises {A} e.
Arguments Unmodelled {A}.

(** Python values of the literal fragment: [None], booleans, integers,
    strings, lists and dicts.  Strings are byte strings holding UTF-8. *)
Inductive pyval :=
| PNone
| PBool (b : bool)
| PInt (z : Z)
| PStr (s : string)
| PList (l : list pyval)
| PDict (d : list (pyval * pyval)).

(** *** [str] of a value *)

Definition dquote : ascii := "034"%char.
Definition squote : ascii := "'"%char.
Definition backslash : ascii := "\"%char.

Fixpoint contains_char (c : ascii) (s : string) : bool :=
  match s with
  | EmptyString => false
  | String a r => Ascii.eqb a c || contains_char c r
  end.

Definition hex_digit (n : N) : ascii :=
  if (n <? 10)%N then ascii_of_N (48 + n) else ascii_of_N (87 + n).

(** The escape [repr] writes for one character inside quotes [q].  Bytes
    from 128 up belong to the UTF-8 form of a non-ASCII character and are
    copied. *)
Definition repr_char (q c : ascii) : string :=
  let n := N_of_ascii c in
  if Ascii.eqb c q || Ascii.eqb c backslash then String backslash (String c EmptyString)
  else if (n =? 9)%N then String backslash "t"
  else if (n =? 10)%N then String backslash "n"
  else if (n =? 13)%N then String backslash "r"
  else if (n <? 32)%N || (n =? 127)%N then
    String backslash (String "x" (String (hex_digit (n / 16))
                                         (String (hex_digit (n mod 16)) EmptyString)))
  else String c EmptyString.

Fixpoint repr_chars (q : ascii) (s : string) : string :=
  match s with
  | EmptyString => EmptyString
  | String c r => repr_char q c ++ repr_chars q r
  end.

Definition repr_str (s : string) : string :=
  let q := if contains_char squote s && negb (contains_char dquote s)
           then dquote else squote in
  String q (repr_chars q s ++ String q EmptyString).

(** The limit the interpreter puts on the number of digits in a conversion
    between [int] and [str] ([sys.int_max_str_digits]). *)
Definition int_max_str_digits : Z := 4300.

(** The decimal text of an integer, and the number of its digits. *)
Definition decimal (z : Z) : string := NilZero.string_of_int (Z.to_int z).

Definition digits (z : Z) : Z := Z.of_nat (String.length (decimal (Z.abs z))).

(** [repr] of an integer raises [ValueError] beyond the limit. *)
Definition repr_int (z : Z) : outcome string :=
  if int_max_str_digits <? digits z then Raises ValueError
  else Returns (decimal z).

(** The texts of the items of a list or dict, joined by [sep]; the first
    item whose [repr] raises ends the conversion. *)
Fixpoint join (sep : string) (l : list (outcome string)) : outcome string :=
  match l with
  | [] => Returns EmptyString
  | [x] => x
  | x :: l' =>
      match x with
      | Returns a =>
          match join sep l' with
          | Returns b => Returns (a ++ sep ++ b)
          | Raises e => Raises e
          | Unmodelled => Unmodelled
          end
      | Raises e => Raises e
      | Unmodelled => Unmodelled
      end
  end.

Definition enclose (open : string) (x : outcome string) (close : string)
  : outcome string :=
  match x with
  | Returns t => Returns (open ++ t ++ close)
  | Raises e => Raises e
  | Unmodelled => Unmodelled
  end.

Fixpoint repr (v : pyval) : outcome string :=
  match v with
  | PNone => Returns "None"
  | PBool true => Returns "True"
  | PBool false => Returns "False"
  | PInt z => repr_int z
  | PStr s => Returns (repr_str s)
  | PList l => enclose "[" (join ", " (map repr l)) "]"
  | PDict d =>
      enclose "{"
        (join ", " (map (fun kx => join ": " [repr (fst kx); repr (snd kx)]) d))
        "}"
  end.

(** *** [datetime.isoformat] *)

Record datetime := mkDatetime {
  year : nat;
  month : nat;
  day : nat;
  hour : nat;
  minute : nat;
  second : nat;
  microsecond : nat
}.

Fixpoint zeros (n : nat) : string :=
  match n with
  | O => EmptyString
  | S n' => String "0" (zeros n')
  end.

(** ["%0wd" % n] *)
Definition zero_pad (w n : nat) : string :=
  let s := NilZero.string_of_uint (Nat.to_uint n) in
  zeros (w - String.length s) ++ s.

Definition isoformat (t : datetime) : string :=
  zero_pad 4 (year t) ++ "-" ++ zero_pad 2 (month t) ++ "-" ++ zero_pad 2 (day t)
  ++ "T" ++ zero_pad 2 (hour t) ++ ":" ++ zero_pad 2 (minute t) ++ ":"
  ++ zero_pad 2 (second t)
  ++ (if Nat.eqb (microsecond t) 0 then EmptyString else "." ++ zero_pad 6 (microsecond t)).

Definition generate_qr_code_data (user_id : Z) (dog_ids : list Z)
    (now : datetime) : outcome string :=
  let data := PDict [(PStr "user_id", PInt user_id);
                     (PStr "dog_ids", PList (map PInt dog_ids));
                     (PStr "timestamp", PStr (isoformat now));
                     (PStr "type", PStr "dogrun_entry")] in
  repr data.

(** *** [ast.literal_eval] on the literal fragment

    The syntax tree of a literal: the parser builds it for the whole input
    before any value is made. *)
Inductive node :=
| NNone
| NBool (b : bool)
| NInt (z : Z)
| NStr (s : string)
| NList (l : list node)
| NDict (d : list (node * node)).

Definition digit_of_char (c : ascii) : option (uint -> uint) :=
  match c with
  | "0" => Some D0 | "1" => Some D1 | "2" => Some D2 | "3" => Some D3
  | "4" => Some D4 | "5" => Some D5 | "6" => Some D6 | "7" => Some D7
  | "8" => Some D8 | "9" => Some D9 | _ => None
  end%char.

(** The longest run of decimal digits at the head of [s]. *)
Fixpoint scan_digits (s : string) : uint * string :=
  match s with
  | EmptyString => (Nil, EmptyString)
  | String c r =>
      match digit_of_char c with
      | Some D => let (d, r') := scan_digits r in (D d, r')
      | None => (Nil, s)
      end
  end.

Definition is_space (c : ascii) : bool :=
  Ascii.eqb c " " || Ascii.eqb c "009".

Fixpoint skip_spaces (s : string) : string :=
  match s with
  | String c r => if is_space c then skip_spaces r else s
  | EmptyString => EmptyString
  end.

(** The characters the model lets follow a complete literal at once: blanks
    and the punctuation of lists and dicts.  Anything else there (a letter, a
    dot, an operator, a quote, ...) leaves the fragment. *)
Definition ends_literal (s : string) : bool :=
  match s with
  | EmptyString => true
  | String c _ =>
      is_space c || Ascii.eqb c "," || Ascii.eqb c "]" || Ascii.eqb c "}"
      || Ascii.eqb c ":"
  end.

(** A decimal integer literal: zeros alone may repeat, a nonzero number must
    not start with a zero, and a literal of more digits than the limit of the
    interpreter is refused as well. *)
Definition int_literal (d : uint) : outcome Z :=
  if int_max_str_digits <? Z.of_nat (nb_digits d) then Raises SyntaxError
  else
    match d with
    | D0 Nil => Returns 0
    | D0 _ => match nzhead d with
              | Nil => Returns 0
              | _ => Raises SyntaxError
              end
    | _ => Returns (Z.of_uint d)
    end.

(** The body of a string literal opened by [q], up to the closing quote.
    A backslash or a control character leaves the fragment; the end of the
    input before the closing quote is a syntax error. *)
Fixpoint scan_string (q : ascii) (s : string) : outcome (string * string) :=
  match s with
  | EmptyString => Raises SyntaxError
  | String c r =>
      if Ascii.eqb c q then Returns (EmptyString, r)
      else if Ascii.eqb c backslash || (N_of_ascii c <? 32)%N
              || (N_of_ascii c =? 127)%N
      then Unmodelled
      else match scan_string q r with
           | Returns (body, r') => Returns (String c body, r')
           | Raises e => Raises e
           | Unmodelled => Unmodelled
           end
  end.

Definition after_literal {A} (a : A) (rest : string) : outcome (A * string) :=
  if ends_literal rest then Returns (a, rest) else Unmodelled.

Definition parse_int (negative : bool) (s : string) : outcome (node * string) :=
  let (d, rest) := scan_digits s in
  match d with
  | Nil => Unmodelled
  | _ =>
      if ends_literal rest then
        match int_literal d with
        | Returns z => Returns (NInt (if negative then - z else z), rest)
        | Raises e => Raises e
        | Unmodelled => Unmodelled
        end
      else Unmodelled
  end.

Definition parse_keyword (s : string) : outcome (node * string) :=
  if String.prefix "None" s then after_literal NNone (substring 4 (String.length s - 4) s)
  else if String.prefix "True" s
  then after_literal (NBool true) (substring 4 (String.length s - 4) s)
  else if String.prefix "False" s
  then after_literal (NBool false) (substring 5 (String.length s - 5) s)
  else Unmodelled.

(** The literal at the head of the input.  [fuel] bounds the number of
    nested calls and [depth] the nesting of brackets the model follows. *)
Fixpoint parse_node (fuel depth : nat) (s : string) {struct fuel}
  : outcome (node * string) :=
  match fuel with
  | O => Unmodelled
  | S fuel' =>
      match skip_spaces s with
      | EmptyString => Raises SyntaxError
      | String c r =>
          if Ascii.eqb c squote || Ascii.eqb c dquote then
            match scan_string c r with
            | Returns (body, rest) => after_literal (NStr body) rest
            | Raises e => Raises e
            | Unmodelled => Unmodelled
            end
          else if Ascii.eqb c "-" then parse_int true r
          else if Ascii.eqb c "+" then parse_int false r
          else if Ascii.eqb c "[" then
            match depth with
            | O => Unmodelled
            | S depth' =>
                match parse_items fuel' depth' r [] with
                | Returns (l, rest) => after_literal (NList l) rest
                | Raises e => Raises e
                | Unmodelled => Unmodelled
                end
            end
          else if Ascii.eqb c "{" then
            match depth with
            | O => Unmodelled
            | S depth' =>
                match parse_entries fuel' depth' r [] with
                | Returns (d, rest) => after_literal (NDict d) rest
                | Raises e => Raises e
                | Unmodelled => Unmodelled
                end
            end
          else match digit_of_char c with
               | Some _ => parse_int false (String c r)
               | None => parse_keyword (String c r)
               end
      end
  end

with parse_items (fuel depth : nat) (s : string) (acc : list node) {struct fuel}
  : outcome (list node * string) :=
  match fuel with
  | O => Unmodelled
  | S fuel' =>
      match skip_spaces s with
      | EmptyString => Raises SyntaxError
      | String c r =>
          if Ascii.eqb c "]" then Returns (List.rev acc, r)
          else
            match parse_node fuel' depth (String c r) with
            | Returns (x, rest) =>
                match skip_spaces rest with
                | EmptyString => Raises SyntaxError
                | String c' r' =>
                    if Ascii.eqb c' "," then parse_items fuel' depth r' (x :: acc)
                    else if Ascii.eqb c' "]" then Returns (List.rev (x :: acc), r')
                    else Unmodelled
                end
            | Raises e => Raises e
            | Unmodelled => Unmodelled
            end
      end
  end

with parse_entries (fuel depth : nat) (s : string) (acc : list (node * node))
    {struct fuel} : outcome (list (node * node) * string) :=
  match fuel with
  | O => Unmodelled
  | S fuel' =>
      match skip_spaces s with
      | EmptyString => Raises SyntaxError
      | String c r =>
          if Ascii.eqb c "}" then Returns (List.rev acc, r)
          else
            match parse_node fuel' depth (String c r) with
            | Returns (k, rest) =>
                match skip_spaces rest with
                | EmptyString => Raises SyntaxError
                | String c' r' =>
                    if Ascii.eqb c' ":" then
                      match parse_node fuel' depth r' with
                      | Returns (x, rest') =>
                          match skip_spaces rest' with
                          | EmptyString => Raises SyntaxError
                          | String c'' r'' =>
                              if Ascii.eqb c'' ","
                              then parse_entries fuel' depth r'' ((k, x) :: acc)
                              else if Ascii.eqb c'' "}"
                              then Returns (List.rev ((k, x) :: acc), r'')
                              else Unmodelled
                          end
                      | Raises e => Raises e
                      | Unmodelled => Unmodelled
                      end
                    else Unmodelled
                end
            | Raises e => Raises e
            | Unmodelled => Unmodelled
            end
      end
  end.

(** [==] between hashable values: [True] and [False] are the integers 1
    and 0. *)
Definition key_eqb (a b : pyval) : bool :=
  match a, b with
  | PNone, PNone => true
  | PBool x, PBool y => Bool.eqb x y
  | PInt x, PInt y => x =? y
  | PBool x, PInt y => (if x then 1 else 0) =? y
  | PInt x, PBool y => x =? (if y then 1 else 0)
  | PStr x, PStr y => String.eqb x y
  | _, _ => false
  end.

(** [d[k] = v]: a key already there keeps its place (and its first spelling). *)
Fixpoint pydict_set (d : list (pyval * pyval)) (k v : pyval)
  : list (pyval * pyval) :=
  match d with
  | [] => [(k, v)]
  | (k', v') :: d' =>
      if key_eqb k' k then (k', v) :: d' else (k', v') :: pydict_set d' k v
  end.

Fixpoint pydict_get (d : list (pyval * pyval)) (k : pyval) : option pyval :=
  match d with
  | [] => None
  | (k', v') :: d' => if key_eqb k' k then Some v' else pydict_get d' k
  end.

(** The value of a syntax tree.  A dict is filled entry by entry; a key that
    is a list or a dict cannot be hashed, which raises [TypeError]. *)
Fixpoint convert (n : node) : result pyval :=
  match n with
  | NNone => Ok PNone
  | NBool b => Ok (PBool b)
  | NInt z => Ok (PInt z)
  | NStr s => Ok (PStr s)
  | NList l =>
      match (fix convert_all (l : list node) : result (list pyval) :=
               match l with
               | [] => Ok []
               | x :: l' =>
                   match convert x with
                   | Ok v =>
                       match convert_all l' with
                       | Ok vs => Ok (v :: vs)
                       | Raise e => Raise e
                       end
                   | Raise e => Raise e
                   end
               end) l with
      | Ok vs => Ok (PList vs)
      | Raise e => Raise e
      end
  | NDict d =>
      (fix fill (d : list (node * node)) (acc : list (pyval * pyval))
         : result pyval :=
         match d with
         | [] => Ok (PDict acc)
         | (k, x) :: d' =>
             match convert k with
             | Ok kv =>
                 match convert x with
                 | Ok xv =>
                     match kv with
                     | PList _ => Raise (TypeError "unhashable type: 'list'")
                     | PDict _ => Raise (TypeError "unhashable type: 'dict'")
                     | _ => fill d' (pydict_set acc kv xv)
                     end
                 | Raise e => Raise e
                 end
             | Raise e => Raise e
             end
         end) d []
  end.

Definition MAX_DEPTH : nat := 32.

(** [ast.literal_eval(s)]: one literal, blanks around it, nothing else. *)
Definition literal_eval (s : string) : outcome pyval :=
  match parse_node (2 * String.length s + 2) MAX_DEPTH s with
  | Returns (n, rest) =>
      match skip_spaces rest with
      | EmptyString =>
          match convert n with
          | Ok v => Returns v
          | Raise e => Raises e
          end
      | String _ _ => Unmodelled
      end
  | Raises e => Raises e
  | Unmodelled => Unmodelled
  end.

(** *** [validate_qr_code_data] *)

Fixpoint is_substring (k s : string) : bool :=
  String.prefix k s
  || match s with
     | EmptyString => false
     | String _ r => is_substring k r
     end.

(** [key in parsed_data] for a string [key]: membership among the keys of a
    dict, among the elements of a list, substring of a string; the other
    values are not containers. *)
Definition contains (parsed_data : pyval) (key : string) : result bool :=
  match parsed_data with
  | PDict d => Ok (existsb (fun kv => key_eqb (fst kv) (PStr key)) d)
  | PList l => Ok (existsb (fun x => key_eqb x (PStr key)) l)
  | PStr s => Ok (is_substring key s)
  | PNone => Raise (TypeError "argument of type 'NoneType' is not iterable")
  | PBool _ => Raise (TypeError "argument of type 'bool' is not iterable")
  | PInt _ => Raise (TypeError "argument of type 'int' is not iterable")
  end.

(** [all(key in parsed_data for key in keys)] *)
Fixpoint all_in (keys : list string) (parsed_data : pyval) : result bool :=
  match keys with
  | [] => Ok true
  | key :: keys' =>
      match contains parsed_data key with
      | Ok true => all_in keys' parsed_data
      | Ok false => Ok false
      | Raise e => Raise e
      end
  end.

(** [parsed_data[key]] for a string [key]. *)
Definition getitem (parsed_data : pyval) (key : string) : result pyval :=
  match parsed_data with
  | PDict d =>
      match pydict_get d (PStr key) with
      | Some v => Ok v
      | None => Raise KeyError
      end
  | PList _ => Raise (TypeError "list indices must be integers or slices, not str")
  | PStr _ => Raise (TypeError "string indices must be integers, not 'str'")
  | PNone => Raise (TypeError "'NoneType' object is not subscriptable")
  | PBool _ => Raise (TypeError "'bool' object is not subscriptable")
  | PInt _ => Raise (TypeError "'int' object is not subscriptable")
  end.

Definition required_keys : list string :=
  ["user_id"; "dog_ids"; "timestamp"; "type"].

(** The [except] clause catches [ValueError] and [SyntaxError] only. *)
Definition validate_qr_code_data (data : string) : outcome (option pyval) :=
  match literal_eval data with
  | Returns parsed_data =>
      match all_in required_keys parsed_data with
      | Ok false => Returns None
      | Ok true =>
          match getitem parsed_data "type" with
          | Ok t =>
              if negb (key_eqb t (PStr "dogrun_entry")) then Returns None
              else Returns (Some parsed_data)
          | Raise e => Raises e
          end
      | Raise e => Raises e
      end
  | Raises SyntaxError | Raises ValueError => Returns None
  | Raises e => Raises e
  | Unmodelled => Unmodelled
  end.

(** ** utils.py: [validate_weight] *)

(** [weight.replace('kg', '')]: every occurrence of ["kg"], left to right. *)
Fixpoint remove_kg (s : string) : string :=
  match s with
  | EmptyString => EmptyString
  | String c r =>
      match r with
      | String c' r' =>
          if Ascii.eqb c "k" && Ascii.eqb c' "g" then remove_kg r'
          else String c (remove_kg r)
      | EmptyString => s
      end
  end.

(** A binary64 value: not-a-number, an infinity, or [m * 2 ^ e] with a sign. *)
Inductive pyfloat :=
| FNaN
| FInf (negative : bool)
| FFinite (negative : bool) (m e : Z).

(** The integer nearest to [n / d], ties to the even one. *)
Definition round_half_even (n d : Z) : Z :=
  let q := n / d in
  let r := n mod d in
  if 2 * r <? d then q
  else if d <? 2 * r then q + 1
  else if Z.even q then q else q + 1.

(** The binade of the positive rational [num / den]: the [k] with
    [2 ^ k <= num / den < 2 ^ (k + 1)]. *)
Definition binade (num den : Z) : Z :=
  let k0 := Z.log2 num - Z.log2 den in
  let below := if 0 <=? k0 then num <? den * 2 ^ k0 else num * 2 ^ (- k0) <? den in
  if below then k0 - 1 else k0.

(** The binary64 nearest to the positive rational [num / den], ties to the
    even significand; beyond the largest finite value it is an infinity. *)
Definition binary64_round (negative : bool) (num den : Z) : pyfloat :=
  let e := Z.max (binade num den - 52) (-1074) in
  let n := if 0 <=? e then num else num * 2 ^ (- e) in
  let d := if 0 <=? e then den * 2 ^ e else den in
  let m := round_half_even n d in
  let m' := if m =? 2 ^ 53 then 2 ^ 52 else m in
  let e' := if m =? 2 ^ 53 then e + 1 else e in
  if 971 <? e' then FInf negative else FFinite negative m' e'.

(** The binary64 nearest to [m * 10 ^ e10]. *)
Definition binary64_of_decimal (negative : bool) (m e10 : Z) : pyfloat :=
  if m =? 0 then FFinite negative 0 0
  else if 0 <=? e10 then binary64_round negative (m * 10 ^ e10) 1
  else binary64_round negative m (10 ^ (- e10)).

Definition signed_significand (negative : bool) (m : Z) : Z :=
  if negative then - m else m.

(** [a <= b] on binary64 values. *)
Definition float_leb (a b : pyfloat) : bool :=
  match a, b with
  | FNaN, _ | _, FNaN => false
  | FInf true, _ => true
  | _, FInf false => true
  | FInf false, _ => false
  | _, FInf true => false
  | FFinite na ma ea, FFinite nb mb eb =>
      let e := Z.min ea eb in
      signed_significand na ma * 2 ^ (ea - e)
      <=? signed_significand nb mb * 2 ^ (eb - e)
  end.

(** The blanks [float] strips from both ends of an ASCII string: the tab,
    the line feed, the vertical tab, the form feed, the carriage return and
    the space. *)
Definition is_float_space (c : ascii) : bool :=
  let n := N_of_ascii c in
  ((9 <=? n) && (n <=? 13) || (n =? 32))%N.

Fixpoint lstrip (s : string) : string :=
  match s with
  | String c r => if is_float_space c then lstrip r else s
  | EmptyString => EmptyString
  end.

Fixpoint rstrip (s : string) : string :=
  match s with
  | EmptyString => EmptyString
  | String c r =>
      match rstrip r with
      | EmptyString => if is_float_space c then EmptyString else String c EmptyString
      | r' => String c r'
      end
  end.

Fixpoint is_ascii (s : string) : bool :=
  match s with
  | EmptyString => true
  | String c r => (N_of_ascii c <? 128)%N && is_ascii r
  end.

Definition lower (c : ascii) : ascii :=
  let n := N_of_ascii c in
  if ((65 <=? n) && (n <=? 90))%N then ascii_of_N (n + 32) else c.

Fixpoint lowercase (s : string) : string :=
  match s with
  | EmptyString => EmptyString
  | String c r => String (lower c) (lowercase r)
  end.

(** A run of digits in which single underscores may separate digits. *)
Fixpoint scan_digitpart (s : string) : uint * string :=
  match s with
  | EmptyString => (Nil, s)
  | String c r =>
      match digit_of_char c with
      | None => (Nil, s)
      | Some D =>
          match r with
          | EmptyString => (D Nil, r)
          | String u r1 =>
              if Ascii.eqb u "_" then
                match scan_digitpart r1 with
                | (Nil, _) => (D Nil, r)
                | (d, rest) => (D d, rest)
                end
              else let (d, rest) := scan_digitpart r in (D d, rest)
          end
      end
  end.

(** The exponent part, when there is one: [e] or [E], a sign, digits. *)
Definition scan_exponent (s : string) : option Z :=
  match s with
  | EmptyString => Some 0
  | String c r =>
      if Ascii.eqb (lower c) "e" then
        let (negative, r) :=
          match r with
          | String "-" r' => (true, r')
          | String "+" r' => (false, r')
          | _ => (false, r)
          end in
        match scan_digitpart r with
        | (Nil, _) => None
        | (d, EmptyString) => Some (if negative then - Z.of_uint d else Z.of_uint d)
        | (_, String _ _) => None
        end
      else None
  end.

(** The number after the sign: digits, a point, digits, exponent; at least
    one digit before or after the point.  The result is the integer the
    digits write and the power of ten it is multiplied by. *)
Definition scan_decimal (s : string) : option (Z * Z) :=
  let (int_part, r1) := scan_digitpart s in
  let (frac_part, r2) :=
    match r1 with
    | String "." r => scan_digitpart r
    | _ => (Nil, r1)
    end in
  match int_part, frac_part with
  | Nil, Nil => None
  | _, _ =>
      match scan_exponent r2 with
      | Some e10 =>
          Some (Z.of_uint (Decimal.app int_part frac_part),
                e10 - Z.of_nat (Decimal.nb_digits frac_part))
      | None => None
      end
  end.

Definition scan_number (negative : bool) (s : string) : option pyfloat :=
  match scan_decimal s with
  | Some (m, e10) => Some (binary64_of_decimal negative m e10)
  | None => None
  end.

Definition split_sign (s : string) : bool * string :=
  match s with
  | String "-" r => (true, r)
  | String "+" r => (false, r)
  | _ => (false, s)
  end.

(** The conversion refuses a numeral of more than [MAX_DIGITS] digits. *)
Definition MAX_DIGITS : Z := 1000000000.

(** [float(s)] for a string: [ValueError] when [s] is not a number.  A string
    with a non-ASCII character is outside the model (Unicode digits and
    blanks), and so is a string of more than [MAX_DIGITS] characters. *)
Definition float_of_string (s : string) : outcome pyfloat :=
  if negb (is_ascii s) || (MAX_DIGITS <? Z.of_nat (String.length s))
  then Unmodelled
  else
    let (negative, r) := split_sign (rstrip (lstrip s)) in
    let w := lowercase r in
    if String.eqb w "inf" || String.eqb w "infinity" then Returns (FInf negative)
    else if String.eqb w "nan" then Returns FNaN
    else match scan_number negative r with
         | Some x => Returns x
         | None => Raises ValueError
         end.

(** The literals [0.1] and [100.0]. *)
Definition float_0_1 : pyfloat := binary64_of_decimal false 1 (-1).
Definition float_100_0 : pyfloat := binary64_of_decimal false 1000 (-1).

Definition validate_weight (weight : string) : outcome bool :=
  match float_of_string (remove_kg weight) with
  | Returns weight_value =>
      Returns (float_leb float_0_1 weight_value
               && float_leb weight_value float_100_0)
  | Raises ValueError => Returns false
  | Raises e => Raises e
  | Unmodelled => Unmodelled
  end.



(** *** Vocabulary of the properties of [validate_weight] *)



(** The least and the greatest rational [validate_weight] accepts: the
    middle between the binary64 literal [0.1] and the binary64 before it,
    [14411518807585587 / 2 ^ 57], and the middle between [100.0] and the
    binary64 after it, [100 + 1 / 2 ^ 47]. *)
Definition weight_min : Q := Qmake 14411518807585587 144115188075855872.
Definition weight_max : Q := Qmake 14073748835532801 140737488355328.

(** [2 ^ j] for [j] above zero and 1 otherwise, so that [2 ^ j] of either
    sign is the fraction [pow2 j / pow2 (- j)]; with it, [num / den < 2 ^ j]
    and [2 ^ j <= num / den] without division. *)
Definition pow2 (j : Z) : Z := 2 ^ Z.max 0 j.

Definition below (num den j : Z) : Prop := num * pow2 (- j) < den * pow2 j.


(** *** Vocabulary of the codec properties *)

(** A character [repr] copies as it is between single quotes and the
    scanner of string literals accepts. *)
Definition plain_char (c : ascii) : bool :=
  negb (Ascii.eqb c squote) && negb (Ascii.eqb c backslash)
  && (32 <=? N_of_ascii c)%N && negb (N_of_ascii c =? 127)%N.

Fixpoint plain (s : string) : bool :=
  match s with
  | EmptyString => true
  | String c r => plain_char c && plain r
  end.

(** An integer [str] converts, and a list of such integers. *)
Definition convertible (z : Z) : bool := digits z <=? int_max_str_digits.

Definition all_convertible (user_id : Z) (dog_ids : list Z) : bool :=
  convertible user_id && forallb convertible dog_ids.

(** The text between the brackets of [str] of a list of integers. *)
Fixpoint int_items (l : list Z) : string :=
  match l with
  | [] => EmptyString
  | [x] => decimal x
  | x :: l' => decimal x ++ ", " ++ int_items l'
  end.

(** The payload [generate_qr_code_data] serialises. *)
Definition entry_payload (user_id : Z) (dog_ids : list Z) (now : datetime)
  : pyval :=
  PDict [(PStr "user_id", PInt user_id);
         (PStr "dog_ids", PList (map PInt dog_ids));
         (PStr "timestamp", PStr (isoformat now));
         (PStr "type", PStr "dogrun_entry")].

Definition starts_with_digit (s : string) : bool :=
  match s with
  | EmptyString => false
  | String c _ => match digit_of_char c with Some _ => true | None => false end
  end.

(** One entry of [str] of a dict whose key is the plain string [k]:
    the quoted key, a colon, a blank, the text of the value, and what
    follows. *)
Definition entry_text (k value_text rest : string) : string :=
  String squote (k ++ String squote (String ":" (String " " (value_text ++ rest)))).

(** The text of the payload, when its integers can be converted. *)
Definition entry_payload_text (user_id : Z) (dog_ids : list Z) (now : datetime)
  : string :=
  String "{"
    (entry_text "user_id" (decimal user_id)
       (String "," (String " "
          (entry_text "dog_ids" (String "[" (int_items dog_ids ++ "]"))
             (String "," (String " "
                (entry_text "timestamp"
                   (String squote (isoformat now ++ String squote EmptyString))
                   (String "," (String " "
                      (entry_text "type" "'dogrun_entry'" "}")))))))))).

End Utils.
Import Utils.

(** ** A stand-in for the collaborators

    Simple functions in the place of passlib and python-jose, and some stored
    rows, to run the handlers on concrete inputs. *)

Module Reference.

Definition pwd_hash (password : string) : string := "$2b$12$" ++ password.

(** As passlib does, the verifier answers [False] for a user without a
    hash, raises for a stored value that is no hash of the scheme and for a
    secret the scheme refuses, and compares otherwise. *)
Definition pwd_verify (plain : string) (hashed : option string) : result bool :=
  match hashed with
  | None => Ok false
  | Some h =>
      if negb (String.prefix "$2b$" h) then Raise ValueError
      else if secret_refused plain then Raise ValueError
      else Ok (String.eqb h (pwd_hash plain))
  end.

Definition claim_text (kv : string * value) : string :=
  fst kv ++ "="
  ++ match snd kv with
     | VStr s => s
     | VDateTime t => NilZero.string_of_int (Z.to_int t)
     | _ => EmptyString
     end.

Definition encode (claims : list (string * value)) (key algorithm : string)
  : string :=
  algorithm ++ "." ++ String.concat "&" (map claim_text claims) ++ "." ++ key.

Definition decode (token key : string) (algorithms : list string) (now : Z)
  : option (list (string * value)) := None.

Definition secret : string := "your-secret-key-here".

Definition test_user : User :=
  mkUser 1 (Some "test@example.com") (Some (pwd_hash "testpassword"))
    (Some "Test User") (Some "Imabari 1-2-3") (Some "09012345678") (Some "yes")
    10 10.

Definition alice : User :=
  mkUser 2 (Some "a@b.com") (Some (pwd_hash "secret123")) (Some "Alice")
    (Some "Imabari 4-5-6") (Some "09000000000") (Some "no") 20 20.

Definition first_post : Post :=
  mkPost 1 (Some "hello") (Some "walk") None 0 (Some 2) 30 30.

Definition empty_db : Database := mkDatabase [] [] [].

Definition sample_db : Database :=
  mkDatabase [test_user; alice] [] [first_post].

Definition alice_request : RegisterRequest :=
  mkRegisterRequest "a@b.com" "secret123" "Alice" "Imabari 4-5-6" "09000000000"
    "no" "2024-01-01" "Pochi" "柴犬" "8kg" 2020.

End Reference.

(** ** main.py: the other handlers on users and dogs *)

Record AddDogRequest := mkAddDogRequest {
  add_name : string;
  add_breed : string;
  add_weight : string;
  add_personality : list string;
  add_last_vaccination_date : string;
  add_birth_year : Z
}.

(** [DogResponse.from_orm(dog)]: every field of the model is required. *)
Definition DogResponse_from_orm (d : Dog) : result body :=
  match Dog_name d, Dog_breed d, Dog_weight d, Dog_personality d,
        Dog_last_vaccination_date d, Dog_owner_id d with
  | Some n, Some b, Some w, Some p, Some v, Some o =>
      Ok [("name", VStr n); ("breed", VStr b); ("weight", VStr w);
          ("personality", VStrList p); ("last_vaccination_date", VStr v);
          ("id", VInt (Dog_id d)); ("owner_id", VInt o);
          ("created_at", VDateTime (Dog_created_at d))]
  | _, _, _, _, _, _ => Raise (ValidationError "DogResponse")
  end.

(** [[DogResponse.from_orm(dog) for dog in dogs]]: the first row that does
    not validate raises. *)
Fixpoint DogResponse_list (ds : list Dog) : result (list body) :=
  match ds with
  | [] => Ok []
  | d :: ds' =>
      match DogResponse_from_orm d with
      | Ok b =>
          match DogResponse_list ds' with
          | Ok bs => Ok (b :: bs)
          | Raise e => Raise e
          end
      | Raise e => Raise e
      end
  end.

(** The filter [Dog.owner_id == owner]. *)
Definition owned_by (owner : Z) (d : Dog) : bool :=
  option_eqb Z.eqb (Dog_owner_id d) (Some owner).

(** [db.query(Dog).filter(p).all()] *)
Definition db_query_dog_all (p : Dog -> bool) : M (list Dog) :=
  fun w => (Ok (filter p (dogs (store w))), w).

Section MoreHandlers.

Variable pwd_context_hash : string -> string.

Definition forgot_password (email : string) : M body :=
  user <- db_query_user_first (email_is email) ;;
  match user with
  | None => raise (HTTPException 404 "ユーザーが見つかりません")
  | Some _ => ret [("message", VStr "パスワードリセットメールを送信しました")]
  end.

Definition get_user_dogs (authorization : option string) : M (list body) :=
  current_user <- get_current_user pwd_context_hash ;;
  dogs <- db_query_dog_all (owned_by (User_id current_user)) ;;
  lift (DogResponse_list dogs).

Definition add_dog (authorization : option string) (request : AddDogRequest)
  : M body :=
  current_user <- get_current_user pwd_context_hash ;;
  dog <- lift (Dog_new
    [("name", VStr (add_name request));
     ("breed", VStr (add_breed request));
     ("weight", VStr (add_weight request));
     ("personality", VStrList (add_personality request));
     ("last_vaccination_date", VStr (add_last_vaccination_date request));
     ("owner_id", VInt (User_id current_user))]) ;;
  dog <- db_add_dog dog ;;
  db_commit ;;;
  dog <- db_refresh_dog dog ;;
  lift (DogResponse_from_orm dog).

(** The store after [n] likes on [db] in a row, each committed, the first
    at time [now] and each later one a tick after the one before. *)
Fixpoint after_likes (n : nat) (post_id now : Z) (db : Database) : Database :=
  match n with
  | O => db
  | S n' =>
      after_likes n' post_id (now + 1)
        (after_like pwd_context_hash None post_id now db)
  end.

End MoreHandlers.

(** The dog [add_dog] stores for a request, with the key and the time the
    engine gives it. *)
Definition added_dog (request : AddDogRequest) (owner pk now : Z) : Dog :=
  mkDog pk (Some (add_name request)) (Some (add_breed request))
    (Some (add_weight request)) (Some (add_personality request))
    (Some (add_last_vaccination_date request)) (Some owner) now now.

(** ** config.py *)

Module Config.

Record Settings := mkSettings {
  access_token_expire_minutes : Z;
  max_file_size : Z;
  allowed_file_types : list string;
  min_password_length : Z
}.

(** The values of the class when the environment overrides none. *)
Definition settings : Settings :=
  mkSettings 30 (10 * 1024 * 1024) ["image/jpeg"; "image/png"; "image/gif"] 8.

End Config.

(** ** Regular expressions, as [re.match] reads the patterns of utils.py *)

Module Regex.

Inductive regex :=
| Empty
| Eps
| Chr (p : ascii -> bool)
| Seq (r1 r2 : regex)
| Alt (r1 r2 : regex)
| Star (r : regex).

Fixpoint nullable (r : regex) : bool :=
  match r with
  | Empty => false
  | Eps => true
  | Chr _ => false
  | Seq r1 r2 => nullable r1 && nullable r2
  | Alt r1 r2 => nullable r1 || nullable r2
  | Star _ => true
  end.

(** What is left of [r] to match after the character [c]. *)
Fixpoint deriv (c : ascii) (r : regex) : regex :=
  match r with
  | Empty => Empty
  | Eps => Empty
  | Chr p => if p c then Eps else Empty
  | Seq r1 r2 =>
      if nullable r1 then Alt (Seq (deriv c r1) r2) (deriv c r2)
      else Seq (deriv c r1) r2
  | Alt r1 r2 => Alt (deriv c r1) (deriv c r2)
  | Star r1 => Seq (deriv c r1) (Star r1)
  end.

(** [r] matches the whole of [s]. *)
Fixpoint matches (r : regex) (s : string) : bool :=
  match s with
  | EmptyString => nullable r
  | String c s' => matches (deriv c r) s'
  end.

(** The strings of a regular expression. *)
Inductive lang : regex -> string -> Prop :=
| lang_eps : lang Eps EmptyString
| lang_chr p c : p c = true -> lang (Chr p) (String c EmptyString)
| lang_seq r1 r2 s1 s2 :
    lang r1 s1 -> lang r2 s2 -> lang (Seq r1 r2) (s1 ++ s2)
| lang_alt_l r1 r2 s : lang r1 s -> lang (Alt r1 r2) s
| lang_alt_r r1 r2 s : lang r2 s -> lang (Alt r1 r2) s
| lang_star_nil r : lang (Star r) EmptyString
| lang_star_cons r s1 s2 :
    lang r s1 -> lang (Star r) s2 -> lang (Star r) (s1 ++ s2).

(** One given character. *)
Definition lit (c : ascii) : regex := Chr (Ascii.eqb c).

(** [r+] *)
Definition plus (r : regex) : regex := Seq r (Star r).

(** [r{n,}] *)
Fixpoint at_least (n : nat) (r : regex) : regex :=
  match n with
  | O => Star r
  | S n' => Seq r (at_least n' r)
  end.

(** The characters of [s] one after the other. *)
Fixpoint word (s : string) : regex :=
  match s with
  | EmptyString => Eps
  | String c s' => Seq (lit c) (word s')
  end.

(** [$] at the end of a pattern: the end of the string, or a newline that
    ends the string. *)
Definition end_of_string : regex := Alt Eps (lit "010").

End Regex.

(** ** utils.py: the validators and the text helpers *)

Module Validation.

Import Regex.

Definition in_range (lo hi : N) (c : ascii) : bool :=
  ((lo <=? N_of_ascii c) && (N_of_ascii c <=? hi))%N.

(** [0-9], [a-zA-Z] and [a-zA-Z0-9] *)
Definition digit_char (c : ascii) : bool := in_range 48 57 c.
Definition letter_char (c : ascii) : bool := in_range 97 122 c || in_range 65 90 c.
Definition alnum_char (c : ascii) : bool := letter_char c || digit_char c.

(** [[a-zA-Z0-9._%+-]] *)
Definition local_char (c : ascii) : bool :=
  alnum_char c || Ascii.eqb c "." || Ascii.eqb c "_" || Ascii.eqb c "%"
  || Ascii.eqb c "+" || Ascii.eqb c "-".

(** [[a-zA-Z0-9.-]] *)
Definition domain_char (c : ascii) : bool :=
  alnum_char c || Ascii.eqb c "." || Ascii.eqb c "-".

(** [[0-9-]] *)
Definition phone_char (c : ascii) : bool := digit_char c || Ascii.eqb c "-".

(** [^[a-zA-Z0-9._%+-]+@[a-zA-Z0-9.-]+\.[a-zA-Z]{2,}$] *)
Definition email_pattern : regex :=
  Seq (plus (Chr local_char))
    (Seq (lit "@")
       (Seq (plus (Chr domain_char))
          (Seq (lit ".")
             (Seq (at_least 2 (Chr letter_char)) end_of_string)))).

Definition validate_email (email : string) : bool :=
  matches email_pattern email.

(** [^(\+81|0)[0-9-]{9,}$] *)
Definition phone_pattern : regex :=
  Seq (Alt (word "+81") (word "0"))
    (Seq (at_least 9 (Chr phone_char)) end_of_string).

Definition validate_phone_number (phone : string) : bool :=
  matches phone_pattern phone.

Fixpoint all_chars (p : ascii -> bool) (s : string) : bool :=
  match s with
  | EmptyString => true
  | String c r => p c && all_chars p r
  end.

Fixpoint any_char (p : ascii -> bool) (s : string) : bool :=
  match s with
  | EmptyString => false
  | String c r => p c || any_char p r
  end.

(** [validate_password].  On ASCII strings [isdigit] is [0-9] and [isalpha]
    is [a-zA-Z]; a string with another character is outside the model. *)
Definition validate_password (settings : Config.Settings) (password : string)
  : outcome bool :=
  if negb (is_ascii password) then Unmodelled
  else if Z.of_nat (String.length password) <? Config.min_password_length settings
  then Returns false
  else
    let has_digit := any_char digit_char password in
    let has_letter := any_char letter_char password in
    Returns (has_digit && has_letter).

(** [s.replace(old, '')] for an [old] of two characters and of one. *)
Fixpoint remove_pair (a b : ascii) (s : string) : string :=
  match s with
  | EmptyString => EmptyString
  | String c r =>
      match r with
      | String c' r' =>
          if Ascii.eqb c a && Ascii.eqb c' b then remove_pair a b r'
          else String c (remove_pair a b r)
      | EmptyString => s
      end
  end.

Fixpoint remove_char (a : ascii) (s : string) : string :=
  match s with
  | EmptyString => EmptyString
  | String c r =>
      if Ascii.eqb c a then remove_char a r else String c (remove_char a r)
  end.

(** [[\w\-_\.]] on ASCII: a word character, a hyphen or a dot. *)
Definition filename_char (c : ascii) : bool :=
  alnum_char c || Ascii.eqb c "_" || Ascii.eqb c "-" || Ascii.eqb c ".".

(** [re.sub(r'[^\w\-_\.]', '', filename)] *)
Fixpoint keep_chars (p : ascii -> bool) (s : string) : string :=
  match s with
  | EmptyString => EmptyString
  | String c r => if p c then String c (keep_chars p r) else keep_chars p r
  end.

(** [sanitize_filename].  [\w] knows the letters of every script; a string
    with a non-ASCII character is outside the model. *)
Definition sanitize_filename (filename : string) : outcome string :=
  if negb (is_ascii filename) then Unmodelled
  else
    let filename := keep_chars filename_char filename in
    let filename := remove_pair "." "." filename in
    let filename := remove_char "/" filename in
    let filename := remove_char "\" filename in
    Returns filename.

(** Two dots side by side somewhere in [s]. *)
Fixpoint has_dot_dot (s : string) : bool :=
  match s with
  | EmptyString => false
  | String c r =>
      match r with
      | String c' _ => (Ascii.eqb c "." && Ascii.eqb c' ".") || has_dot_dot r
      | EmptyString => false
      end
  end.

End Validation.

Module Text.

(** A Python string as the list of its characters, whatever a character is. *)
Section Truncate.

Context {char : Type}.
Variable dot : char.

(** [text[:n]]: the first [n] characters, or all but the last [-n] when [n]
    is negative. *)
Definition slice_to (text : list char) (n : Z) : list char :=
  if 0 <=? n then firstn (Z.to_nat n) text
  else firstn (List.length text - Z.to_nat (- n)) text.

Definition truncate_text (text : list char) (max_length : Z) : list char :=
  if Z.of_nat (List.length text) <=? max_length then text
  else (slice_to text max_length ++ [dot; dot; dot])%list.

End Truncate.

(** [create_pagination_response]; [None] is [ZeroDivisionError]. *)
Record pagination := mkPagination {
  total : Z;
  page : Z;
  size : Z;
  pages : Z;
  has_next : bool;
  has_prev : bool
}.

Definition create_pagination_response (total page size : Z) : option pagination :=
  if size =? 0 then None
  else Some (mkPagination total page size ((total + size - 1) / size)
               (page * size <? total) (1 <? page)).

(** A calendar date, compared as Python compares [(year, month, day)]. *)
Definition date_le (y1 m1 d1 y2 m2 d2 : Z) : Prop :=
  y1 < y2 \/ y1 = y2 /\ (m1 < m2 \/ m1 = m2 /\ d1 <= d2).

Definition date_lt (y1 m1 d1 y2 m2 d2 : Z) : Prop :=
  y1 < y2 \/ y1 = y2 /\ (m1 < m2 \/ m1 = m2 /\ d1 < d2).

(** [calculate_age(birth_date)] with [today] the reading of the clock. *)
Definition calculate_age (today birth_date : datetime) : Z :=
  let age := Z.of_nat (year today) - Z.of_nat (year birth_date) in
  if (month today <? month birth_date)%nat
     || ((month today =? month birth_date)%nat
         && (day today <? day birth_date)%nat)
  then age - 1 else age.

End Text.

(** * Properties of the handlers *)

Lemma option_eqb_eq {A} (eqb : A -> A -> bool) :
  (forall a b, eqb a b = true <-> a = b) ->
  forall x y, option_eqb eqb x y = true <-> x = y.
Proof.
  intros H [a|] [b|]; simpl; try rewrite H; split; intro E;
    try discriminate; try reflexivity; congruence.
Qed.

Lemma email_is_spec (e : string) (u : User) :
  email_is e u = true <-> User_email u = Some e.
Proof. apply option_eqb_eq, String.eqb_eq. Qed.

(** The keywords [register] passes to [User] include [application_date],
    which is no attribute of the class. *)
Lemma User_new_application_date (e h f a p r d : value) :
  User_new [("email", e); ("hashed_password", h); ("full_name", f);
            ("address", a); ("phone_number", p); ("imabari_residency", r);
            ("application_date", d)]
  = Raise (TypeError "'application_date' is an invalid keyword argument for User").
Proof. reflexivity. Qed.

(** The keywords [get_current_user] passes to [User] start, after the two
    valid ones, with [user_name]. *)
Lemma User_new_user_name (e h : value) (rest : list (string * value)) :
  User_new (("email", e) :: ("hashed_password", h) :: ("user_name", VStr "テストユーザー") :: rest)
  = Raise (TypeError "'user_name' is an invalid keyword argument for User").
Proof. reflexivity. Qed.

Section HandlerProperties.

Variable pwd_context_hash : string -> string.
Variable pwd_context_verify : string -> option string -> result bool.
Variable jwt_encode : list (string * value) -> string -> string -> string.
Variable jwt_decode :
  string -> string -> list string -> Z -> option (list (string * value)).
Variable SECRET_KEY : string.

(** What [get_current_user] does: the stored test user when there is one,
    [TypeError] from the constructor otherwise; the store is not touched. *)
Lemma get_current_user_result (w : World) :
  get_current_user pwd_context_hash w
  = match find (email_is "test@example.com") (users (store w)) with
    | Some u => (Ok u, w)
    | None =>
        (Raise (TypeError "'user_name' is an invalid keyword argument for User"), w)
    end.
Proof.
  unfold get_current_user, bind, db_query_user_first.
  destruct (find _ _); reflexivity.
Qed.

(** C1: on a store that holds the test user, [GET /users/me] answers with the
    profile of that user whatever bearer token the request presents, and
    also when it presents none; no request is rejected as unauthenticated. *)
Theorem get_current_user_info_ignores_token (authorization : option string)
    (fs : list bool) (now : Z) :
  get_current_user_info pwd_context_hash authorization
    (request_world Reference.sample_db fs now)
  = (Ok [("email", VStr "test@example.com"); ("full_name", VStr "Test User");
         ("address", VStr "Imabari 1-2-3"); ("phone_number", VStr "09012345678");
         ("imabari_residency", VStr "yes"); ("id", VInt 1);
         ("created_at", VDateTime 10)],
     request_world Reference.sample_db fs now).
Proof.
  unfold get_current_user_info, bind.
  rewrite get_current_user_result. reflexivity.
Qed.

(** The definition kept in a comment does reject a token that fails
    verification, and a subject no stored user has. *)
Lemma get_current_user_commented_rejects (credentials : string) (w : World) :
  verify_token jwt_decode SECRET_KEY credentials (clock w) = None
  \/ (exists e, verify_token jwt_decode SECRET_KEY credentials (clock w) = Some (VStr e)
                /\ find (email_is e) (users (store w)) = None) ->
  get_current_user_commented jwt_decode SECRET_KEY credentials w
  = (Raise (HTTPException 401 "認証に失敗しました"), w).
Proof.
  unfold get_current_user_commented, bind, utcnow, db_query_user_first, raise.
  intros [H | [e [H F]]]; rewrite H.
  - reflexivity.
  - simpl. change (fun u : User => email_is e u) with (email_is e).
    rewrite F. reflexivity.
Qed.

(** What [register] does: the duplicate-address error when the address is
    stored; otherwise [ValueError] from the hashing of a password passlib
    refuses, and [TypeError] from the [User] constructor for any other
    password; in every case before anything is added to the session. *)
Lemma register_result (request : RegisterRequest) (w : World) :
  register pwd_context_hash jwt_encode SECRET_KEY request w
  = match find (email_is (reg_email request)) (users (store w)) with
    | Some _ =>
        (Raise (HTTPException 400 "このメールアドレスは既に登録されています"), w)
    | None =>
        if secret_refused (reg_password request) then (Raise ValueError, w)
        else
          (Raise (TypeError "'application_date' is an invalid keyword argument for User"),
           w)
    end.
Proof.
  unfold register, bind, db_query_user_first, lift, get_password_hash.
  destruct (find _ _); [reflexivity|].
  destruct (secret_refused (reg_password request)); reflexivity.
Qed.

(** C2: whatever the request, the stored rows and the outcome of the commits
    to come, [register] ends with a new user and its dog both stored or with
    the users and the dogs as they were; no run stores a user without the
    dog.  (As the code stands the second case is the only one that occurs:
    the run ends before the first [db.add].) *)
Theorem register_user_and_dog_together (request : RegisterRequest)
    (db : Database) (fs : list bool) (now : Z) :
  let w' := snd (register pwd_context_hash jwt_encode SECRET_KEY request
                   (request_world db fs now)) in
  (exists u d,
      users (store w') = (users db ++ [u])%list
      /\ dogs (store w') = (dogs db ++ [d])%list
      /\ Dog_owner_id d = Some (User_id u))
  \/ (users (store w') = users db /\ dogs (store w') = dogs db).
Proof.
  intro w'. right. subst w'. rewrite register_result.
  destruct (find _ _); [|destruct (secret_refused _)]; split; reflexivity.
Qed.

(** As long as the verification of the password returns, a login with an
    unknown address and a login with a wrong password raise the same
    exception, status 401 with one fixed message. *)
Lemma login_failure_uniform (r1 r2 : LoginRequest) (w1 w2 : World) :
  login_refused pwd_context_verify r1 w1 ->
  login_refused pwd_context_verify r2 w2 ->
  fst (login pwd_context_verify jwt_encode SECRET_KEY r1 w1)
  = Raise (HTTPException 401 "メールアドレスまたはパスワードが正しくありません")
  /\ fst (login pwd_context_verify jwt_encode SECRET_KEY r1 w1)
     = fst (login pwd_context_verify jwt_encode SECRET_KEY r2 w2).
Proof.
  assert (L : forall r w, login_refused pwd_context_verify r w ->
            fst (login pwd_context_verify jwt_encode SECRET_KEY r w)
            = Raise (HTTPException 401 "メールアドレスまたはパスワードが正しくありません")).
  { intros r w [H | [u [H V]]];
      unfold login, bind, db_query_user_first; rewrite H.
    - reflexivity.
    - unfold lift. rewrite V. reflexivity. }
  intros H1 H2. rewrite (L _ _ H1), (L _ _ H2). split; reflexivity.
Qed.

(** C3: the password is verified only once a stored user has the address,
    and an exception of the verification is not caught.  So with a password
    on which the verification raises, a login for a stored address ends with
    that exception (a server error for the caller), while the same password
    sent for an unknown address is answered with the 401 exception: the two
    responses tell whether the address is registered. *)
Theorem login_error_reveals_stored_address (r1 r2 : LoginRequest) (w : World)
    (u : User) (e : exn) :
  find (email_is (login_email r1)) (users (store w)) = Some u ->
  verify_password pwd_context_verify (login_password r1)
    (User_hashed_password u) = Raise e ->
  find (email_is (login_email r2)) (users (store w)) = None ->
  login_password r2 = login_password r1 ->
  login pwd_context_verify jwt_encode SECRET_KEY r1 w = (Raise e, w)
  /\ login pwd_context_verify jwt_encode SECRET_KEY r2 w
     = (Raise (HTTPException 401 "メールアドレスまたはパスワードが正しくありません"), w).
Proof.
  intros F1 V F2 _. unfold login, bind, db_query_user_first, lift.
  rewrite F1, F2, V. split; reflexivity.
Qed.

(** C6: a registration whose address a stored user already has raises the
    duplicate-address exception with status 400 and leaves the store as it
    was, so the users with that address are the same as before. *)
Theorem register_duplicate_email (request : RegisterRequest) (w : World) (u : User) :
  find (email_is (reg_email request)) (users (store w)) = Some u ->
  register pwd_context_hash jwt_encode SECRET_KEY request w
  = (Raise (HTTPException 400 "このメールアドレスは既に登録されています"), w).
Proof. intro H. rewrite register_result, H. reflexivity. Qed.

(** Without [expires_delta] the token carries [exp] fifteen minutes after
    the time of the call. *)
Lemma create_access_token_default_expiry (data : list (string * value)) (now : Z) :
  create_access_token jwt_encode SECRET_KEY data None now
  = jwt_encode (dict_set data "exp" (VDateTime (now + 15 * 60 * 1000000)))
      SECRET_KEY ALGORITHM.
Proof. reflexivity. Qed.

(** C7: the token a successful [login] returns carries [exp] fifteen minutes
    after the time of the call, not the thirty of
    [ACCESS_TOKEN_EXPIRE_MINUTES]. *)
Theorem login_token_expires_after_15_minutes (request : LoginRequest)
    (w : World) (u : User) (e : string) :
  find (email_is (login_email request)) (users (store w)) = Some u ->
  User_email u = Some e ->
  verify_password pwd_context_verify (login_password request)
    (User_hashed_password u) = Ok true ->
  login pwd_context_verify jwt_encode SECRET_KEY request w
  = (Ok [("access_token",
          VStr (jwt_encode
                  [("sub", VStr e);
                   ("exp", VDateTime (clock w + timedelta_minutes 15))]
                  SECRET_KEY ALGORITHM));
         ("token_type", VStr "bearer")], w)
  /\ timedelta_minutes 15 <> timedelta_minutes ACCESS_TOKEN_EXPIRE_MINUTES.
Proof.
  intros F E V. split; [|discriminate].
  unfold login, bind, db_query_user_first, lift. rewrite F, V, E. reflexivity.
Qed.

End HandlerProperties.

Lemma User_eqb_eq (a b : User) : User_eqb a b = true <-> a = b.
Proof.
  unfold User_eqb. repeat rewrite andb_true_iff.
  repeat rewrite (option_eqb_eq String.eqb String.eqb_eq).
  repeat rewrite Z.eqb_eq.
  destruct a, b; simpl. split.
  - intros [[[[[[[[-> ->] ->] ->] ->] ->] ->] ->] ->]. reflexivity.
  - intros [= -> -> -> -> -> -> -> -> ->]. repeat split.
Qed.

Lemma Post_eqb_eq (a b : Post) : Post_eqb a b = true <-> a = b.
Proof.
  unfold Post_eqb. repeat rewrite andb_true_iff.
  repeat rewrite (option_eqb_eq String.eqb String.eqb_eq).
  rewrite (option_eqb_eq Z.eqb Z.eqb_eq).
  repeat rewrite Z.eqb_eq.
  destruct a, b; simpl. split.
  - intros [[[[[[[-> ->] ->] ->] ->] ->] ->] ->]. reflexivity.
  - intros [= -> -> -> -> -> -> -> ->]. repeat split.
Qed.

Lemma flush_user_untouched (now : Z) (ops : list pending) (u : User) :
  user_assignments (User_id u) ops = [] -> flush_user now ops u = u.
Proof.
  intro H. unfold flush_user. rewrite H. simpl.
  replace (User_eqb u u) with true; [reflexivity|].
  symmetry. apply User_eqb_eq. reflexivity.
Qed.

Lemma flush_post_untouched (now : Z) (ops : list pending) (p : Post) :
  post_assignments (Post_id p) ops = [] -> flush_post now ops p = p.
Proof.
  intro H. unfold flush_post. rewrite H. simpl.
  replace (Post_eqb p p) with true; [reflexivity|].
  symmetry. apply Post_eqb_eq. reflexivity.
Qed.

Lemma map_id_on {A} (f : A -> A) (l : list A) :
  (forall x, In x l -> f x = x) -> map f l = l.
Proof.
  intro H. rewrite <- (map_id l) at 2. apply map_ext_in. exact H.
Qed.

Lemma find_unique_post (l : list Post) (k : Z) (p x : Post) :
  NoDup (map Post_id l) ->
  find (fun p => Post_id p =? k) l = Some p ->
  In x l -> Post_id x = k -> x = p.
Proof.
  induction l as [|a l IH]; simpl; [discriminate|].
  intros ND F I K. inversion ND as [|? ? NI ND']; subst.
  destruct (Post_id a =? Post_id x) eqn:E.
  - injection F as <-. destruct I as [->|I]; [reflexivity|].
    exfalso. apply NI. apply Z.eqb_eq in E. rewrite E. apply in_map, I.
  - destruct I as [->|I]; [rewrite Z.eqb_refl in E; discriminate|].
    apply IH; auto.
Qed.

Lemma flush_post_liked (now : Z) (l : list Post) (p x : Post) :
  NoDup (map Post_id l) ->
  find (fun q => Post_id q =? Post_id p) l = Some p ->
  In x l ->
  flush_post now [SetPostAttr (Post_id p) "likes" (VInt (Post_likes p + 1))] x
  = liked (Post_id p) now x.
Proof.
  intros ND F I. unfold liked.
  destruct (Post_id x =? Post_id p) eqn:E.
  - apply Z.eqb_eq in E.
    assert (x = p) by (eapply find_unique_post; eauto). subst x.
    unfold flush_post. simpl. rewrite Z.eqb_refl. simpl.
    unfold Post_eqb, Post_setattr. simpl.
    replace (Post_likes p =? Post_likes p + 1) with false
      by (symmetry; apply Z.eqb_neq; lia).
    rewrite !andb_false_r. simpl. reflexivity.
  - apply flush_post_untouched. simpl. rewrite Z.eqb_sym, E. reflexivity.
Qed.

Lemma liked_id (k now : Z) (p : Post) : Post_id (liked k now p) = Post_id p.
Proof. unfold liked. destruct (Post_id p =? k); reflexivity. Qed.

Lemma liked_ids (k now : Z) (l : list Post) :
  map Post_id (map (liked k now) l) = map Post_id l.
Proof. rewrite map_map. apply map_ext. intro p. apply liked_id. Qed.

Lemma find_liked (k now j : Z) (l : list Post) :
  find (fun p => Post_id p =? j) (map (liked k now) l)
  = option_map (liked k now) (find (fun p => Post_id p =? j) l).
Proof.
  induction l as [|a l IH]; simpl; [reflexivity|].
  rewrite liked_id. destruct (Post_id a =? j); [reflexivity|exact IH].
Qed.

Lemma likes_of_liked (us : list User) (ds : list Dog) (ps : list Post)
    (k now j : Z) :
  likes_of (mkDatabase us ds (map (liked k now) ps)) j
  = if j =? k then option_map (fun n => n + 1) (likes_of (mkDatabase us ds ps) j)
    else likes_of (mkDatabase us ds ps) j.
Proof.
  unfold likes_of. simpl. rewrite find_liked.
  destruct (find _ ps) as [p|] eqn:F; simpl; [|destruct (j =? k); reflexivity].
  apply find_some in F. destruct F as [_ F]. apply Z.eqb_eq in F. subst j.
  unfold liked. destruct (Post_id p =? k); reflexivity.
Qed.

Section LikeProperties.

Variable pwd_context_hash : string -> string.

(** A like that goes through: the store afterwards. *)
Lemma like_post_found (authorization : option string) (post_id : Z)
    (db : Database) (fs : list bool) (now : Z) (u : User) (p : Post) :
  find (email_is "test@example.com") (users db) = Some u ->
  NoDup (map Post_id (posts db)) ->
  find (fun p => Post_id p =? post_id) (posts db) = Some p ->
  commit_succeeds fs ->
  exists w',
    like_post pwd_context_hash authorization post_id (request_world db fs now)
    = (Ok [("message", VStr "いいねしました")], w')
    /\ store w' = mkDatabase (users db) (dogs db) (map (liked post_id now) (posts db)).
Proof.
  intros U ND F C.
  assert (K : Post_id p = post_id).
  { apply find_some in F. apply Z.eqb_eq, F. }
  unfold like_post, bind. rewrite get_current_user_result.
  unfold request_world at 1. simpl. rewrite U.
  unfold db_query_post_first. simpl. rewrite F.
  unfold post_setattr, db_commit, enqueue, ret. simpl.
  assert (SU : map (flush_user now
                      [SetPostAttr (Post_id p) "likes" (VInt (Post_likes p + 1))])
                   (users db) = users db).
  { apply map_id_on. intros x _. apply flush_user_untouched. reflexivity. }
  assert (SP : map (flush_post now
                      [SetPostAttr (Post_id p) "likes" (VInt (Post_likes p + 1))])
                   (posts db) = map (liked post_id now) (posts db)).
  { apply map_ext_in. intros x I. subst post_id.
    apply (flush_post_liked now (posts db)); assumption. }
  destruct fs as [|[|] fs]; [| discriminate C |];
    (eexists; split; [reflexivity|]; simpl; rewrite SU, SP; reflexivity).
Qed.

Lemma after_like_found (authorization : option string) (post_id now : Z)
    (db : Database) (u : User) (n : Z) :
  find (email_is "test@example.com") (users db) = Some u ->
  NoDup (map Post_id (posts db)) ->
  likes_of db post_id = Some n ->
  let db' := after_like pwd_context_hash authorization post_id now db in
  find (email_is "test@example.com") (users db') = Some u
  /\ NoDup (map Post_id (posts db'))
  /\ likes_of db' post_id = Some (n + 1).
Proof.
  intros U ND L. unfold likes_of in L.
  destruct (find _ (posts db)) as [p|] eqn:F; [|discriminate].
  injection L as L.
  destruct (like_post_found authorization post_id db [] now u p U ND F eq_refl)
    as [w' [R S]].
  unfold after_like. rewrite R. simpl. rewrite S. simpl.
  split; [exact U|]. split; [rewrite liked_ids; exact ND|].
  rewrite (likes_of_liked (users db) (dogs db) (posts db)).
  rewrite Z.eqb_refl. unfold likes_of. simpl. rewrite F. simpl. congruence.
Qed.

(** When the caller identity resolves (the test user is stored), a like on
    an existing post that the engine commits adds exactly one to the like
    count of that post and leaves every other like count as it was; three
    such likes in a row take a count of 0 to 3; and a like on an identifier
    no post has raises the 404 exception and changes nothing. *)
Lemma like_post_counts (db : Database) (post_id : Z) (u : User) :
  find (email_is "test@example.com") (users db) = Some u ->
  NoDup (map Post_id (posts db)) ->
  (forall authorization fs now p,
      find (fun p => Post_id p =? post_id) (posts db) = Some p ->
      commit_succeeds fs ->
      exists w',
        like_post pwd_context_hash authorization post_id (request_world db fs now)
        = (Ok [("message", VStr "いいねしました")], w')
        /\ likes_of (store w') post_id = Some (Post_likes p + 1)
        /\ (forall k, k <> post_id -> likes_of (store w') k = likes_of db k)
        /\ users (store w') = users db /\ dogs (store w') = dogs db)
  /\ (likes_of db post_id = Some 0 ->
      forall a1 a2 a3 n1 n2 n3,
        likes_of (after_like pwd_context_hash a3 post_id n3
                    (after_like pwd_context_hash a2 post_id n2
                       (after_like pwd_context_hash a1 post_id n1 db)))
                 post_id = Some 3)
  /\ (forall authorization fs now,
         find (fun p => Post_id p =? post_id) (posts db) = None ->
         like_post pwd_context_hash authorization post_id (request_world db fs now)
         = (Raise (HTTPException 404 "投稿が見つかりません"),
            request_world db fs now)).
Proof.
  intros U ND. split; [|split].
  - intros authorization fs now p F C.
    destruct (like_post_found authorization post_id db fs now u p U ND F C)
      as [w' [R S]].
    exists w'. split; [exact R|]. rewrite S.
    split; [|split; [|split; reflexivity]].
    + rewrite (likes_of_liked (users db) (dogs db) (posts db)).
      rewrite Z.eqb_refl. unfold likes_of. simpl. rewrite F. reflexivity.
    + intros k K. rewrite (likes_of_liked (users db) (dogs db) (posts db)).
      apply Z.eqb_neq in K. rewrite K. destruct db; reflexivity.
  - intros L a1 a2 a3 n1 n2 n3.
    destruct (after_like_found a1 post_id n1 db u 0 U ND L) as [U1 [ND1 L1]].
    destruct (after_like_found a2 post_id n2 _ u _ U1 ND1 L1) as [U2 [ND2 L2]].
    destruct (after_like_found a3 post_id n3 _ u _ U2 ND2 L2) as [_ [_ L3]].
    exact L3.
  - intros authorization fs now F.
    unfold like_post, bind. rewrite get_current_user_result.
    unfold request_world at 1. simpl. rewrite U.
    unfold db_query_post_first. simpl. rewrite F. reflexivity.
Qed.

End LikeProperties.

Lemma Forall2_map_self {A} (P : A -> A -> Prop) (f : A -> A) (l : list A) :
  (forall x, P x (f x)) -> Forall2 P l (map f l).
Proof. intro H. induction l; simpl; constructor; auto. Qed.

Lemma flush_user_profile (request : UpdateUserProfileRequest) (pk now : Z)
    (x : User) :
  profile_frame request pk now True x
    (flush_user now (profile_assignments pk request) x).
Proof.
  unfold profile_frame, flush_user, profile_assignments. simpl.
  destruct (pk =? User_id x) eqn:E; simpl.
  - apply Z.eqb_eq in E.
    match goal with |- context [User_eqb x ?y] =>
      destruct (User_eqb x y) eqn:Q end.
    + apply User_eqb_eq in Q.
      repeat split; auto; try (intro; congruence);
        rewrite Q; reflexivity.
    + repeat split; auto. intro; congruence.
  - replace (User_eqb x x) with true
      by (symmetry; apply User_eqb_eq; reflexivity).
    apply Z.eqb_neq in E.
    repeat split; auto; intros; congruence.
Qed.

Lemma profile_frame_refl (request : UpdateUserProfileRequest) (pk now : Z)
    (x : User) : profile_frame request pk now False x x.
Proof. unfold profile_frame. intuition. Qed.

Lemma profile_frame_weaken (request : UpdateUserProfileRequest) (pk now : Z)
    (P Q : Prop) (x x' : User) :
  (Q -> P) -> profile_frame request pk now P x x' ->
  profile_frame request pk now Q x x'.
Proof. unfold profile_frame. intuition. Qed.

Section ProfileProperties.

Variable pwd_context_hash : string -> string.

Lemma update_user_profile_store (authorization : option string)
    (request : UpdateUserProfileRequest) (db : Database) (fs : list bool)
    (now : Z) (u : User) :
  find (email_is "test@example.com") (users db) = Some u ->
  store (snd (update_user_profile pwd_context_hash authorization request
                (request_world db fs now)))
  = match fs with
    | true :: _ => db
    | _ => mkDatabase
             (map (flush_user now (profile_assignments (User_id u) request))
                  (users db))
             (dogs db) (posts db)
    end.
Proof.
  intro U. unfold update_user_profile, bind. rewrite get_current_user_result.
  unfold request_world at 1. simpl. rewrite U.
  unfold user_setattr, db_commit, enqueue. simpl.
  assert (SP : map (flush_post now (profile_assignments (User_id u) request))
                   (posts db) = posts db).
  { apply map_id_on. intros x _. apply flush_post_untouched. reflexivity. }
  unfold profile_assignments in SP. clear U.
  destruct fs as [|[|] fs]; simpl; try reflexivity;
    unfold db_refresh_user, lift; simpl;
    (destruct (find _ _) as [u0|]; simpl;
     [destruct (UserResponse_from_orm u0)|]; simpl; rewrite SP; reflexivity).
Qed.

(** C10: for a profile update whose caller identity resolves to the stored
    user [u], every user row keeps its [id], [email], [hashed_password] and
    [created_at]; [updated_at] keeps its value or takes the time of the
    commit; a row other than the caller's is unchanged; when the engine
    commits, the caller's row holds the four values of the request; dogs and
    posts are unchanged. *)
Theorem update_user_profile_frame (authorization : option string)
    (request : UpdateUserProfileRequest) (db : Database) (fs : list bool)
    (now : Z) (u : User) :
  find (email_is "test@example.com") (users db) = Some u ->
  let db' := store (snd (update_user_profile pwd_context_hash authorization
                           request (request_world db fs now))) in
  Forall2 (profile_frame request (User_id u) now (commit_succeeds fs))
          (users db) (users db')
  /\ dogs db' = dogs db
  /\ posts db' = posts db.
Proof.
  intros U db'. subst db'. rewrite (update_user_profile_store _ _ _ _ _ u U).
  destruct fs as [|[|] fs]; simpl.
  - split; [|split; reflexivity]. apply Forall2_map_self. intro x.
    eapply profile_frame_weaken; [|apply flush_user_profile]. auto.
  - split; [|split; reflexivity]. rewrite <- (map_id (users db)) at 2.
    apply Forall2_map_self. intro x.
    eapply profile_frame_weaken; [|apply profile_frame_refl].
    unfold commit_succeeds. simpl. discriminate.
  - split; [|split; reflexivity]. apply Forall2_map_self. intro x.
    eapply profile_frame_weaken; [|apply flush_user_profile]. auto.
Qed.

End ProfileProperties.

(** ** The handlers on concrete inputs *)

(** On stored rows: an unknown address and a wrong password for a known
    one. *)
Lemma login_failure_uniform_witness :
  let w := request_world Reference.sample_db [] 0 in
  let r1 := mkLoginRequest "nobody@b.com" "secret123" in
  let r2 := mkLoginRequest "a@b.com" "wrong" in
  login_refused Reference.pwd_verify r1 w
  /\ login_refused Reference.pwd_verify r2 w
  /\ fst (login Reference.pwd_verify Reference.encode Reference.secret r1 w)
     = Raise (HTTPException 401 "メールアドレスまたはパスワードが正しくありません")
  /\ fst (login Reference.pwd_verify Reference.encode Reference.secret r1 w)
     = fst (login Reference.pwd_verify Reference.encode Reference.secret r2 w).
Proof.
  intros w r1 r2.
  assert (H1 : login_refused Reference.pwd_verify r1 w) by (left; reflexivity).
  assert (H2 : login_refused Reference.pwd_verify r2 w).
  { right. exists Reference.alice. split; reflexivity. }
  split; [exact H1|]. split; [exact H2|].
  exact (login_failure_uniform Reference.pwd_verify Reference.encode
           Reference.secret r1 r2 w w H1 H2).
Defined.

(** C3, on stored rows: a password that holds a NUL, sent for the address of
    a stored user and for an address no user has. *)
Lemma login_error_reveals_stored_address_witness :
  let w := request_world Reference.sample_db [] 0 in
  let password := String "000" "secret123" in
  let r1 := mkLoginRequest "a@b.com" password in
  let r2 := mkLoginRequest "nobody@b.com" password in
  find (email_is (login_email r1)) (users (store w)) = Some Reference.alice
  /\ verify_password Reference.pwd_verify (login_password r1)
       (User_hashed_password Reference.alice) = Raise ValueError
  /\ find (email_is (login_email r2)) (users (store w)) = None
  /\ login_password r2 = login_password r1
  /\ login Reference.pwd_verify Reference.encode Reference.secret r1 w
     = (Raise ValueError, w)
  /\ login Reference.pwd_verify Reference.encode Reference.secret r2 w
     = (Raise (HTTPException 401 "メールアドレスまたはパスワードが正しくありません"), w).
Proof.
  intros w password r1 r2.
  split; [reflexivity|]. split; [reflexivity|]. split; [reflexivity|].
  split; [reflexivity|].
  exact (login_error_reveals_stored_address Reference.pwd_verify
           Reference.encode Reference.secret r1 r2 w Reference.alice ValueError
           eq_refl eq_refl eq_refl eq_refl).
Defined.

(** C6, as stated, fails: with the address already stored, [register] raises
    an exception whose status is that of a validation error, and no
    exception with the status of a conflict. *)
Lemma register_duplicate_not_conflict :
  let r := fst (register Reference.pwd_hash Reference.encode Reference.secret
                  Reference.alice_request
                  (request_world Reference.sample_db [] 0)) in
  r = Raise (HTTPException Exceptions.ValidationError_status
               "このメールアドレスは既に登録されています")
  /\ ~ (exists detail,
          r = Raise (HTTPException Exceptions.ConflictError_status detail)).
Proof.
  intro r. subst r. rewrite register_result. simpl.
  split; [reflexivity|]. intros [detail H]. discriminate H.
Qed.

Lemma register_duplicate_email_witness :
  let w := request_world Reference.sample_db [] 0 in
  find (email_is (reg_email Reference.alice_request)) (users (store w))
  = Some Reference.alice
  /\ register Reference.pwd_hash Reference.encode Reference.secret
       Reference.alice_request w
     = (Raise (HTTPException 400 "このメールアドレスは既に登録されています"), w).
Proof.
  intro w. split; [reflexivity|].
  exact (register_duplicate_email Reference.pwd_hash Reference.encode
           Reference.secret Reference.alice_request w Reference.alice eq_refl).
Defined.

(** C7, on stored rows: a login at time 0 returns a token whose [exp] is
    900 seconds later. *)
Lemma login_token_expiry_witness :
  let w := request_world Reference.sample_db [] 0 in
  let request := mkLoginRequest "a@b.com" "secret123" in
  find (email_is (login_email request)) (users (store w)) = Some Reference.alice
  /\ User_email Reference.alice = Some "a@b.com"
  /\ verify_password Reference.pwd_verify (login_password request)
       (User_hashed_password Reference.alice) = Ok true
  /\ login Reference.pwd_verify Reference.encode Reference.secret request w
     = (Ok [("access_token",
             VStr (Reference.encode
                     [("sub", VStr "a@b.com");
                      ("exp", VDateTime (clock w + timedelta_minutes 15))]
                     Reference.secret ALGORITHM));
            ("token_type", VStr "bearer")], w).
Proof.
  intros w request. split; [reflexivity|]. split; [reflexivity|].
  split; [reflexivity|].
  exact (proj1 (login_token_expires_after_15_minutes Reference.pwd_verify
                  Reference.encode Reference.secret request w Reference.alice
                  "a@b.com" eq_refl eq_refl eq_refl)).
Defined.

(** C8: the identity dependency runs before the post is looked up, and on
    a store without the test user it tries to create that user with keywords
    the [User] class does not have.  So a like on an identifier no post has
    raises [TypeError] there, not the 404 exception, whatever token the
    request presents. *)
Theorem like_post_missing_post_not_404 (authorization : option string)
    (post_id : Z) :
  let w := request_world Reference.empty_db [] 0 in
  find (fun p => Post_id p =? post_id) (posts (store w)) = None
  /\ like_post Reference.pwd_hash authorization post_id w
     = (Raise (TypeError "'user_name' is an invalid keyword argument for User"), w)
  /\ ~ (exists detail,
          fst (like_post Reference.pwd_hash authorization post_id w)
          = Raise (HTTPException Exceptions.NotFoundError_status detail)).
Proof.
  intro w. split; [reflexivity|].
  assert (L : like_post Reference.pwd_hash authorization post_id w
              = (Raise (TypeError
                          "'user_name' is an invalid keyword argument for User"),
                 w)).
  { unfold like_post, bind. rewrite get_current_user_result. reflexivity. }
  split; [exact L|]. rewrite L. intros [detail H]. discriminate H.
Qed.

Lemma like_post_counts_witness :
  find (email_is "test@example.com") (users Reference.sample_db)
  = Some Reference.test_user
  /\ NoDup (map Post_id (posts Reference.sample_db))
  /\ likes_of Reference.sample_db 1 = Some 0
  /\ likes_of (after_like Reference.pwd_hash None 1 3
                 (after_like Reference.pwd_hash None 1 2
                    (after_like Reference.pwd_hash None 1 1 Reference.sample_db)))
              1 = Some 3.
Proof.
  assert (ND : NoDup (map Post_id (posts Reference.sample_db))).
  { simpl. constructor; [intros []|constructor]. }
  split; [reflexivity|]. split; [exact ND|]. split; [reflexivity|].
  exact (proj1 (proj2 (like_post_counts Reference.pwd_hash Reference.sample_db 1
                         Reference.test_user eq_refl ND))
           eq_refl None None None 1 2 3).
Defined.

(** C10, as stated, fails: a profile update that changes the name of the
    caller also changes [updated_at] of that row. *)
Lemma update_user_profile_changes_updated_at :
  let db' := store (snd (update_user_profile Reference.pwd_hash None
                           (mkUpdateUserProfileRequest "New Name" "Imabari 1-2-3"
                              "09012345678" "yes")
                           (request_world Reference.sample_db [] 99))) in
  map User_updated_at (users Reference.sample_db) = [10; 20]
  /\ map User_updated_at (users db') = [99; 20].
Proof. split; reflexivity. Qed.

Lemma update_user_profile_frame_witness :
  let request := mkUpdateUserProfileRequest "New Name" "Imabari 1-2-3"
                   "09012345678" "yes" in
  let db' := store (snd (update_user_profile Reference.pwd_hash None request
                           (request_world Reference.sample_db [] 99))) in
  find (email_is "test@example.com") (users Reference.sample_db)
  = Some Reference.test_user
  /\ Forall2 (profile_frame request 1 99 (commit_succeeds []))
             (users Reference.sample_db) (users db')
  /\ dogs db' = dogs Reference.sample_db
  /\ posts db' = posts Reference.sample_db.
Proof.
  intros request db'. split; [reflexivity|].
  exact (update_user_profile_frame Reference.pwd_hash None request
           Reference.sample_db [] 99 Reference.test_user eq_refl).
Defined.

(** * Properties of the utilities *)

(** ** Decimal integers *)

Lemma nzhead_not_D0 (d d' : uint) : nzhead d <> D0 d'.
Proof. induction d; simpl; try discriminate; exact IHd. Qed.

Lemma pos_to_uint_head (p : positive) (d : uint) : Pos.to_uint p <> D0 d.
Proof.
  intro H.
  assert (U : unorm (Pos.to_uint p) = Pos.to_uint p).
  { rewrite <- (DecimalPos.Unsigned.to_of (Pos.to_uint p)).
    rewrite DecimalPos.Unsigned.of_to. reflexivity. }
  rewrite H in U. unfold unorm in U. simpl in U.
  destruct (nzhead d) eqn:N; try discriminate U.
  - injection U as U. subst d.
    apply (DecimalPos.Unsigned.to_uint_nonzero p). exact H.
  - apply (nzhead_not_D0 d u). rewrite N. reflexivity.
Qed.

Lemma length_string_of_uint (d : uint) :
  String.length (NilEmpty.string_of_uint d) = nb_digits d.
Proof. induction d; simpl; try rewrite IHd; reflexivity. Qed.

Lemma decimal_pos (p : positive) :
  decimal (Z.pos p) = NilEmpty.string_of_uint (Pos.to_uint p).
Proof.
  unfold decimal. simpl. unfold NilZero.string_of_uint.
  pose proof (DecimalPos.Unsigned.to_uint_nonnil p) as N.
  destruct (Pos.to_uint p); try reflexivity. exfalso. apply N. reflexivity.
Qed.

Lemma decimal_neg (p : positive) :
  decimal (Z.neg p) = String "-" (NilEmpty.string_of_uint (Pos.to_uint p)).
Proof.
  unfold decimal. simpl. unfold NilZero.string_of_uint.
  pose proof (DecimalPos.Unsigned.to_uint_nonnil p) as N.
  destruct (Pos.to_uint p); try reflexivity. exfalso. apply N. reflexivity.
Qed.

(** The digits of a number are those of its decimal text. *)
Lemma digits_pos (p : positive) :
  digits (Z.pos p) = Z.of_nat (nb_digits (Pos.to_uint p))
  /\ digits (Z.neg p) = Z.of_nat (nb_digits (Pos.to_uint p)).
Proof.
  unfold digits. simpl Z.abs. rewrite decimal_pos, length_string_of_uint.
  split; reflexivity.
Qed.

Lemma int_literal_pos (p : positive) :
  Z.of_nat (nb_digits (Pos.to_uint p)) <= int_max_str_digits ->
  int_literal (Pos.to_uint p) = Returns (Z.pos p).
Proof.
  intro L.
  assert (V : Z.of_uint (Pos.to_uint p) = Z.pos p).
  { unfold Z.of_uint. rewrite DecimalPos.Unsigned.of_to. reflexivity. }
  pose proof (pos_to_uint_head p) as H.
  pose proof (DecimalPos.Unsigned.to_uint_nonnil p) as N.
  unfold int_literal.
  replace (int_max_str_digits <? Z.of_nat (nb_digits (Pos.to_uint p)))
    with false by (symmetry; apply Z.ltb_ge; exact L).
  destruct (Pos.to_uint p) eqn:E; try (rewrite <- V; reflexivity).
  exfalso. apply (H u). reflexivity.
Qed.

Lemma scan_digits_print (d : uint) (rest : string) :
  starts_with_digit rest = false ->
  scan_digits (NilEmpty.string_of_uint d ++ rest) = (d, rest).
Proof.
  intro H. induction d; simpl; try (rewrite IHd; reflexivity).
  destruct rest as [|c r]; [reflexivity|].
  simpl in H. simpl. destruct (digit_of_char c); [discriminate|reflexivity].
Qed.

Lemma ends_literal_no_digit (rest : string) :
  ends_literal rest = true -> starts_with_digit rest = false.
Proof.
  destruct rest as [|c r]; [reflexivity|]. simpl.
  destruct (digit_of_char c) eqn:D; [|reflexivity].
  destruct c as [[|] [|] [|] [|] [|] [|] [|] [|]]; simpl in D;
    try discriminate D; simpl; intro H; discriminate H.
Qed.

Lemma parse_int_print (negative : bool) (p : positive) (rest : string) :
  Z.of_nat (nb_digits (Pos.to_uint p)) <= int_max_str_digits ->
  ends_literal rest = true ->
  parse_int negative (NilEmpty.string_of_uint (Pos.to_uint p) ++ rest)
  = Returns (NInt (if negative then Z.neg p else Z.pos p), rest).
Proof.
  intros L H. unfold parse_int.
  rewrite scan_digits_print by (apply ends_literal_no_digit; exact H).
  rewrite H, (int_literal_pos p L).
  pose proof (DecimalPos.Unsigned.to_uint_nonnil p) as N.
  destruct (Pos.to_uint p); [exfalso; apply N; reflexivity| ..];
    destruct negative; reflexivity.
Qed.

(** ** Strings *)

Lemma append_assoc (a b c : string) : (a ++ b) ++ c = a ++ b ++ c.
Proof. induction a; simpl; [reflexivity|rewrite IHa; reflexivity]. Qed.

Lemma length_append (a b : string) :
  String.length (a ++ b) = (String.length a + String.length b)%nat.
Proof. induction a; simpl; [reflexivity|rewrite IHa; reflexivity]. Qed.

Lemma plain_app (a b : string) : plain (a ++ b) = plain a && plain b.
Proof.
  induction a; simpl; [reflexivity|]. rewrite IHa, andb_assoc. reflexivity.
Qed.

Lemma plain_char_inv (c : ascii) :
  plain_char c = true ->
  Ascii.eqb c squote = false /\ Ascii.eqb c backslash = false
  /\ (N_of_ascii c <? 32)%N = false /\ (N_of_ascii c =? 127)%N = false.
Proof.
  unfold plain_char. rewrite !andb_true_iff, !negb_true_iff.
  intros [[[A B] C] D]. repeat split; auto.
  apply N.ltb_ge. apply N.leb_le. exact C.
Qed.

Lemma scan_string_plain (s rest : string) :
  plain s = true ->
  scan_string squote (s ++ String squote rest) = Returns (s, rest).
Proof.
  induction s as [|c s IH]; simpl; intro H.
  - reflexivity.
  - apply andb_true_iff in H. destruct H as [Hc Hs].
    destruct (plain_char_inv c Hc) as [A [B [C D]]].
    rewrite A, B, C, D. simpl. rewrite (IH Hs). reflexivity.
Qed.

Lemma repr_chars_plain (s : string) :
  plain s = true -> repr_chars squote s = s.
Proof.
  induction s as [|c s IH]; simpl; intro H; [reflexivity|].
  apply andb_true_iff in H. destruct H as [Hc Hs].
  destruct (plain_char_inv c Hc) as [A [B [C D]]].
  unfold repr_char. rewrite A, B. simpl.
  assert (N9 : (N_of_ascii c =? 9)%N = false).
  { apply N.eqb_neq. apply N.ltb_ge in C. lia. }
  assert (N10 : (N_of_ascii c =? 10)%N = false).
  { apply N.eqb_neq. apply N.ltb_ge in C. lia. }
  assert (N13 : (N_of_ascii c =? 13)%N = false).
  { apply N.eqb_neq. apply N.ltb_ge in C. lia. }
  rewrite N9, N10, N13, C, D. simpl. rewrite (IH Hs). reflexivity.
Qed.

Lemma plain_no_squote (s : string) :
  plain s = true -> contains_char squote s = false.
Proof.
  induction s as [|c s IH]; simpl; intro H; [reflexivity|].
  apply andb_true_iff in H. destruct H as [Hc Hs].
  destruct (plain_char_inv c Hc) as [A _]. rewrite A, (IH Hs). reflexivity.
Qed.

Lemma repr_str_plain (s : string) :
  plain s = true -> repr_str s = String squote (s ++ String squote EmptyString).
Proof.
  intro H. unfold repr_str. rewrite (plain_no_squote s H). simpl.
  rewrite (repr_chars_plain s H). reflexivity.
Qed.

(** ** [isoformat] writes plain characters only *)

Lemma plain_digits (d : uint) : plain (NilEmpty.string_of_uint d) = true.
Proof. induction d; simpl; auto. Qed.

Lemma plain_zeros (n : nat) : plain (zeros n) = true.
Proof. induction n; simpl; auto. Qed.

Lemma plain_zero_pad (w n : nat) : plain (zero_pad w n) = true.
Proof.
  unfold zero_pad. rewrite plain_app, plain_zeros. simpl.
  unfold NilZero.string_of_uint.
  destruct (Nat.to_uint n); try apply plain_digits. reflexivity.
Qed.

Lemma plain_isoformat (t : datetime) : plain (isoformat t) = true.
Proof.
  unfold isoformat.
  repeat (rewrite plain_app; rewrite ?plain_zero_pad; simpl).
  destruct (Nat.eqb (microsecond t) 0); simpl; [reflexivity|].
  apply plain_zero_pad.
Qed.

(** ** The parser on the text the encoder writes *)

Lemma digit_of_char_cases (c : ascii) (D : uint -> uint) :
  digit_of_char c = Some D ->
  In c ["0"; "1"; "2"; "3"; "4"; "5"; "6"; "7"; "8"; "9"]%char.
Proof.
  destruct c as [[|] [|] [|] [|] [|] [|] [|] [|]]; simpl;
    try discriminate; intros _; tauto.
Qed.

Lemma parse_node_digit (fuel depth : nat) (c : ascii) (r : string)
    (D : uint -> uint) :
  digit_of_char c = Some D ->
  parse_node (S fuel) depth (String c r) = parse_int false (String c r).
Proof.
  intro H. apply digit_of_char_cases in H. simpl in H.
  repeat (destruct H as [<- | H]; [reflexivity|]). destruct H.
Qed.

Lemma parse_node_space (fuel depth : nat) (s : string) :
  parse_node (S fuel) depth (String " " s) = parse_node (S fuel) depth s.
Proof. reflexivity. Qed.

Lemma parse_items_space (fuel depth : nat) (s : string) (acc : list node) :
  parse_items (S fuel) depth (String " " s) acc = parse_items (S fuel) depth s acc.
Proof. reflexivity. Qed.

Lemma parse_entries_space (fuel depth : nat) (s : string)
    (acc : list (node * node)) :
  parse_entries (S fuel) depth (String " " s) acc
  = parse_entries (S fuel) depth s acc.
Proof. reflexivity. Qed.

Lemma convertible_pos (z : Z) (p : positive) :
  convertible z = true -> z = Z.pos p \/ z = Z.neg p ->
  Z.of_nat (nb_digits (Pos.to_uint p)) <= int_max_str_digits.
Proof.
  unfold convertible. intros C E. apply Z.leb_le in C.
  destruct (digits_pos p) as [A B].
  destruct E as [-> | ->]; congruence.
Qed.

(** The first character of a printed positive number is a digit. *)
Lemma digits_head (p : positive) :
  exists c r D, NilEmpty.string_of_uint (Pos.to_uint p) = String c r
                /\ digit_of_char c = Some D.
Proof.
  pose proof (DecimalPos.Unsigned.to_uint_nonnil p) as N.
  destruct (Pos.to_uint p); [exfalso; apply N; reflexivity| ..]; simpl;
    eexists; eexists; eexists; split; reflexivity.
Qed.

(** An integer the encoder printed is read back, whatever follows it, as
    long as that can follow a literal. *)
Lemma parse_node_int (fuel depth : nat) (z : Z) (rest : string) :
  convertible z = true ->
  ends_literal rest = true ->
  parse_node (S fuel) depth (decimal z ++ rest) = Returns (NInt z, rest).
Proof.
  intros C H. destruct z as [|p|p].
  - change (decimal 0) with "0". simpl append.
    rewrite (parse_node_digit fuel depth "0" rest D0 eq_refl).
    pose proof (scan_digits_print Nil rest (ends_literal_no_digit rest H)) as S0.
    simpl in S0. unfold parse_int. simpl scan_digits. rewrite S0, H.
    reflexivity.
  - rewrite decimal_pos.
    destruct (digits_head p) as [c [r [D [E Dc]]]].
    pose proof (parse_int_print false p rest
                  (convertible_pos _ p C (or_introl eq_refl)) H) as P.
    rewrite E in *. simpl append in *.
    rewrite (parse_node_digit fuel depth c (r ++ rest) D Dc). exact P.
  - rewrite decimal_neg. simpl append.
    change (parse_node (S fuel) depth
              (String "-" (NilEmpty.string_of_uint (Pos.to_uint p) ++ rest)))
      with (parse_int true (NilEmpty.string_of_uint (Pos.to_uint p) ++ rest)).
    apply (parse_int_print true p rest
             (convertible_pos _ p C (or_intror eq_refl)) H).
Qed.

(** The first character of a printed integer is no blank and closes no
    bracket. *)
Lemma decimal_head (z : Z) :
  exists c r, decimal z = String c r
              /\ is_space c = false
              /\ Ascii.eqb c "]" = false.
Proof.
  destruct z as [|p|p].
  - exists "0"%char, EmptyString. repeat split.
  - rewrite decimal_pos. destruct (digits_head p) as [c [r [D [E Dc]]]].
    exists c, r. split; [exact E|].
    apply digit_of_char_cases in Dc. simpl in Dc.
    repeat (destruct Dc as [<- | Dc]; [split; reflexivity|]). destruct Dc.
  - rewrite decimal_neg. eexists; eexists. repeat split.
Qed.

Lemma parse_node_str (fuel depth : nat) (s rest : string) :
  plain s = true -> ends_literal rest = true ->
  parse_node (S fuel) depth (String squote (s ++ String squote rest))
  = Returns (NStr s, rest).
Proof.
  intros P H.
  change (parse_node (S fuel) depth (String squote (s ++ String squote rest)))
    with (match scan_string squote (s ++ String squote rest) with
          | Returns (body, rest') => after_literal (NStr body) rest'
          | Raises e => Raises e
          | Unmodelled => Unmodelled
          end).
  rewrite (scan_string_plain s rest P). unfold after_literal. rewrite H.
  reflexivity.
Qed.

(** One step of the loop over the items of a list, on a printed integer. *)
Lemma parse_items_int (fuel depth : nat) (x : Z) (tail : string)
    (acc : list node) :
  convertible x = true ->
  ends_literal tail = true ->
  parse_items (S (S fuel)) depth (decimal x ++ tail) acc
  = match skip_spaces tail with
    | EmptyString => Raises SyntaxError
    | String c r =>
        if Ascii.eqb c "," then parse_items (S fuel) depth r (NInt x :: acc)
        else if Ascii.eqb c "]" then Returns (List.rev (NInt x :: acc), r)
        else Unmodelled
    end.
Proof.
  intros C H. pose proof (parse_node_int fuel depth x tail C H) as P.
  destruct (decimal_head x) as [c [r [E [Hs Hb]]]].
  rewrite E in *. simpl append in *.
  change (parse_items (S (S fuel)) depth (String c (r ++ tail)) acc)
    with (match (if is_space c then skip_spaces (r ++ tail)
                 else String c (r ++ tail)) with
          | EmptyString => Raises SyntaxError
          | String c0 r0 =>
              if Ascii.eqb c0 "]" then Returns (List.rev acc, r0)
              else
                match parse_node (S fuel) depth (String c0 r0) with
                | Returns (x0, rest) =>
                    match skip_spaces rest with
                    | EmptyString => Raises SyntaxError
                    | String c' r' =>
                        if Ascii.eqb c' ","
                        then parse_items (S fuel) depth r' (x0 :: acc)
                        else if Ascii.eqb c' "]"
                        then Returns (List.rev (x0 :: acc), r')
                        else Unmodelled
                    end
                | Raises e => Raises e
                | Unmodelled => Unmodelled
                end
          end).
  rewrite Hs, Hb, P. reflexivity.
Qed.

Lemma forallb_cons {A} (f : A -> bool) (x : A) (l : list A) :
  forallb f (x :: l) = true -> f x = true /\ forallb f l = true.
Proof. simpl. intro H. apply andb_true_iff in H. exact H. Qed.

Lemma parse_items_ints (l : list Z) :
  forall (fuel depth : nat) (rest : string) (acc : list node),
    forallb convertible l = true ->
    (List.length l < fuel)%nat ->
    parse_items (S fuel) depth (int_items l ++ String "]" rest) acc
    = Returns ((List.rev acc ++ map NInt l)%list, rest).
Proof.
  induction l as [|x l IH]; intros fuel depth rest acc C F.
  - simpl. rewrite List.app_nil_r. reflexivity.
  - destruct fuel as [|fuel]; [simpl in F; lia|].
    apply forallb_cons in C. destruct C as [Cx Cl].
    destruct l as [|y l].
    + change (int_items [x]) with (decimal x).
      rewrite (parse_items_int fuel depth x (String "]" rest) acc Cx eq_refl).
      simpl. reflexivity.
    + assert (E : int_items (x :: y :: l)
                  = decimal x ++ String "," (String " " (int_items (y :: l))))
        by reflexivity.
      rewrite E. clear E. remember (int_items (y :: l)) as t eqn:Et.
      rewrite append_assoc. simpl append.
      rewrite parse_items_int by (exact Cx || reflexivity).
      cbn -[parse_items]. rewrite parse_items_space. subst t.
      rewrite (IH fuel depth rest (NInt x :: acc)) by (exact Cl || (simpl in *; lia)).
      simpl. rewrite <- List.app_assoc. reflexivity.
Qed.

Lemma parse_entries_unfold (fuel depth : nat) (s : string)
    (acc : list (node * node)) :
  parse_entries (S fuel) depth s acc
  = match skip_spaces s with
    | EmptyString => Raises SyntaxError
    | String c r =>
        if Ascii.eqb c "}" then Returns (List.rev acc, r)
        else
          match parse_node fuel depth (String c r) with
          | Returns (k, rest) =>
              match skip_spaces rest with
              | EmptyString => Raises SyntaxError
              | String c' r' =>
                  if Ascii.eqb c' ":" then
                    match parse_node fuel depth r' with
                    | Returns (x, rest') =>
                        match skip_spaces rest' with
                        | EmptyString => Raises SyntaxError
                        | String c'' r'' =>
                            if Ascii.eqb c'' ","
                            then parse_entries fuel depth r'' ((k, x) :: acc)
                            else if Ascii.eqb c'' "}"
                            then Returns (List.rev ((k, x) :: acc), r'')
                            else Unmodelled
                        end
                    | Raises e => Raises e
                    | Unmodelled => Unmodelled
                    end
                  else Unmodelled
              end
          | Raises e => Raises e
          | Unmodelled => Unmodelled
          end
    end.
Proof. reflexivity. Qed.

(** One entry of a dict followed by a comma: the loop goes on with the
    entry recorded. *)
Lemma parse_entries_entry (fuel depth : nat) (k value_text rest : string)
    (v : node) (acc : list (node * node)) :
  plain k = true ->
  parse_node (S fuel) depth (value_text ++ String "," rest)
  = Returns (v, String "," rest) ->
  parse_entries (S (S fuel)) depth (entry_text k value_text (String "," rest)) acc
  = parse_entries (S fuel) depth rest ((NStr k, v) :: acc).
Proof.
  intros P H. rewrite parse_entries_unfold. unfold entry_text.
  cbn -[parse_node parse_entries].
  rewrite (parse_node_str fuel depth k) by (exact P || reflexivity).
  cbn -[parse_node parse_entries].
  rewrite parse_node_space, H. reflexivity.
Qed.

(** The last entry of a dict: the closing brace ends the loop. *)
Lemma parse_entries_last (fuel depth : nat) (k value_text rest : string)
    (v : node) (acc : list (node * node)) :
  plain k = true ->
  parse_node (S fuel) depth (value_text ++ String "}" rest)
  = Returns (v, String "}" rest) ->
  parse_entries (S (S fuel)) depth (entry_text k value_text (String "}" rest)) acc
  = Returns (List.rev ((NStr k, v) :: acc), rest).
Proof.
  intros P H. rewrite parse_entries_unfold. unfold entry_text.
  cbn -[parse_node parse_entries].
  rewrite (parse_node_str fuel depth k) by (exact P || reflexivity).
  cbn -[parse_node parse_entries].
  rewrite parse_node_space, H. reflexivity.
Qed.

(** A printed list of integers is read back. *)
Lemma parse_node_int_list (fuel depth : nat) (l : list Z) (rest : string) :
  forallb convertible l = true ->
  (List.length l < fuel)%nat -> ends_literal rest = true ->
  parse_node (S (S fuel)) (S depth)
    (String "[" (int_items l ++ String "]" rest))
  = Returns (NList (map NInt l), rest).
Proof.
  intros C F H.
  change (parse_node (S (S fuel)) (S depth)
            (String "[" (int_items l ++ String "]" rest)))
    with (match parse_items (S fuel) depth (int_items l ++ String "]" rest) []
          with
          | Returns (l0, rest0) => after_literal (NList l0) rest0
          | Raises e => Raises e
          | Unmodelled => Unmodelled
          end).
  rewrite (parse_items_ints l fuel depth rest [] C F). simpl List.rev.
  simpl app. unfold after_literal. rewrite H. reflexivity.
Qed.

(** ** The text of the entry payload *)

Lemma repr_int_convertible (z : Z) :
  repr_int z = if convertible z then Returns (decimal z) else Raises ValueError.
Proof.
  unfold repr_int, convertible.
  destruct (Z.ltb_spec int_max_str_digits (digits z));
    destruct (Z.leb_spec (digits z) int_max_str_digits);
    try reflexivity; lia.
Qed.

Lemma join_cons (sep : string) (x y : outcome string)
    (l : list (outcome string)) :
  join sep (x :: y :: l)
  = match x with
    | Returns a =>
        match join sep (y :: l) with
        | Returns b => Returns (a ++ sep ++ b)
        | Raises e => Raises e
        | Unmodelled => Unmodelled
        end
    | Raises e => Raises e
    | Unmodelled => Unmodelled
    end.
Proof. reflexivity. Qed.

Lemma join_ints (l : list Z) :
  join ", " (map repr (map PInt l))
  = if forallb convertible l then Returns (int_items l) else Raises ValueError.
Proof.
  induction l as [|x l IH]; [reflexivity|].
  destruct l as [|y l].
  - cbn [map join forallb]. change (repr (PInt x)) with (repr_int x).
    rewrite repr_int_convertible, andb_true_r. reflexivity.
  - cbn [map] in IH |- *. rewrite join_cons, IH.
    change (repr (PInt x)) with (repr_int x). rewrite repr_int_convertible.
    change (forallb convertible (x :: y :: l))
      with (convertible x && forallb convertible (y :: l)).
    destruct (convertible x); [|reflexivity].
    destruct (forallb convertible (y :: l)); reflexivity.
Qed.

(** What the encoder does: the text of the payload when every identifier
    can be converted, [ValueError] otherwise. *)
Lemma generate_qr_code_data_outcome (user_id : Z) (dog_ids : list Z)
    (now : datetime) :
  generate_qr_code_data user_id dog_ids now
  = if all_convertible user_id dog_ids
    then Returns (entry_payload_text user_id dog_ids now)
    else Raises ValueError.
Proof.
  unfold generate_qr_code_data, all_convertible.
  cbn [repr map fst snd]. rewrite join_ints, repr_int_convertible.
  rewrite (repr_str_plain _ (plain_isoformat now)).
  destruct (convertible user_id); [|reflexivity].
  destruct (forallb convertible dog_ids); [|reflexivity].
  cbn [join enclose andb]. f_equal.
  unfold entry_payload_text, entry_text. cbn [repr_str]. simpl.
  repeat (rewrite ?append_assoc; simpl; f_equal).
Qed.

Lemma parse_entry_payload (fuel : nat) (user_id : Z) (dog_ids : list Z)
    (now : datetime) :
  all_convertible user_id dog_ids = true ->
  (List.length dog_ids < fuel)%nat ->
  parse_node (S (S (S (S (S (S fuel)))))) MAX_DEPTH
    (entry_payload_text user_id dog_ids now)
  = Returns (NDict [(NStr "user_id", NInt user_id);
                    (NStr "dog_ids", NList (map NInt dog_ids));
                    (NStr "timestamp", NStr (isoformat now));
                    (NStr "type", NStr "dogrun_entry")],
             EmptyString).
Proof.
  intros C F. apply andb_true_iff in C. destruct C as [Cu Cd].
  unfold entry_payload_text.
  match goal with
  | |- parse_node (S ?f) _ (String "{" ?s) = _ =>
      change (parse_node (S f) MAX_DEPTH (String "{" s))
        with (match parse_entries f 31 s [] with
              | Returns (d, rest) => after_literal (NDict d) rest
              | Raises e => Raises e
              | Unmodelled => Unmodelled
              end)
  end.
  rewrite (parse_entries_entry _ _ "user_id" _ _ (NInt user_id))
    by (reflexivity || (apply parse_node_int; (exact Cu || reflexivity))).
  rewrite parse_entries_space.
  rewrite (parse_entries_entry _ _ "dog_ids" _ _ (NList (map NInt dog_ids))).
  2: reflexivity.
  2: { simpl append. rewrite append_assoc. simpl append.
       apply (parse_node_int_list _ 30); [exact Cd | lia | reflexivity]. }
  rewrite parse_entries_space.
  rewrite (parse_entries_entry _ _ "timestamp" _ _ (NStr (isoformat now))).
  2: reflexivity.
  2: { simpl append. rewrite append_assoc. simpl append.
       apply parse_node_str; [apply plain_isoformat | reflexivity]. }
  rewrite parse_entries_space.
  rewrite (parse_entries_last _ _ "type" _ _ (NStr "dogrun_entry"));
    reflexivity.
Qed.

Lemma convert_ints (l : list Z) :
  convert (NList (map NInt l)) = Ok (PList (map PInt l)).
Proof.
  simpl.
  match goal with
  | |- match ?t with _ => _ end = _ =>
      assert (E : t = Ok (map PInt l)); [|rewrite E; reflexivity]
  end.
  induction l as [|x l IH]; simpl; [reflexivity|]. rewrite IH. reflexivity.
Qed.

Lemma length_int_items (l : list Z) :
  (List.length l <= String.length (int_items l))%nat.
Proof.
  induction l as [|x l IH]; [simpl; lia|].
  destruct (decimal_head x) as [c [r [E _]]].
  destruct l as [|y l].
  - change (int_items [x]) with (decimal x). rewrite E. simpl. lia.
  - change (int_items (x :: y :: l))
      with (decimal x ++ String "," (String " " (int_items (y :: l)))).
    rewrite length_append, E. simpl in *. lia.
Qed.

Lemma length_entry_text (k value_text rest : string) :
  (String.length value_text + String.length rest
   <= String.length (entry_text k value_text rest))%nat.
Proof.
  unfold entry_text. simpl. rewrite length_append. simpl.
  rewrite length_append. lia.
Qed.

Lemma length_entry_payload_text (user_id : Z) (dog_ids : list Z)
    (now : datetime) :
  (List.length dog_ids + 4
   <= String.length (entry_payload_text user_id dog_ids now))%nat.
Proof.
  unfold entry_payload_text.
  match goal with
  | |- (_ <= String.length (String _ (entry_text ?k ?v
                              (String _ (String _ (entry_text ?k' ?v' ?r')))))
       )%nat =>
      set (R2 := r');
      pose proof (length_entry_text k' v' R2) as B;
      set (E2 := entry_text k' v' R2) in *;
      pose proof (length_entry_text k v (String "," (String " " E2))) as A;
      set (E1 := entry_text k v (String "," (String " " E2))) in *
  end.
  change (String.length (String "{" E1)) with (S (String.length E1)).
  change (String.length (String "," (String " " E2)))
    with (S (S (String.length E2))) in A.
  change (String.length (String "[" (int_items dog_ids ++ "]")))
    with (S (String.length (int_items dog_ids ++ "]"))) in B.
  rewrite length_append in B. clearbody E1 E2 R2.
  pose proof (length_int_items dog_ids). lia.
Qed.

(** More fuel than the parser needs changes nothing: on the encoder's text
    the parser is given twice the length of the text. *)
Lemma literal_eval_entry_payload (user_id : Z) (dog_ids : list Z)
    (now : datetime) :
  all_convertible user_id dog_ids = true ->
  literal_eval (entry_payload_text user_id dog_ids now)
  = Returns (entry_payload user_id dog_ids now).
Proof.
  intro C. unfold literal_eval.
  pose proof (length_entry_payload_text user_id dog_ids now) as L.
  remember (String.length (entry_payload_text user_id dog_ids now)) as n.
  replace (2 * n + 2)%nat
    with (S (S (S (S (S (S (2 * n - 4))))))) by lia.
  rewrite (parse_entry_payload _ _ _ _ C) by lia.
  simpl skip_spaces. cbv iota.
  change (convert (NDict ?d))
    with (match convert (NList (map NInt dog_ids)) with
          | Ok xv =>
              Ok (PDict [(PStr "user_id", PInt user_id); (PStr "dog_ids", xv);
                         (PStr "timestamp", PStr (isoformat now));
                         (PStr "type", PStr "dogrun_entry")])
          | Raise e => Raise e
          end).
  rewrite convert_ints. reflexivity.
Qed.

(** ** The entry-payload codec *)

(** C5, as stated, fails: the conversion of an integer of more than 4300
    digits to text raises [ValueError], so for such a user identifier, or
    such a dog identifier, the encoder produces no payload to decode; with
    4300 digits it still does. *)
Lemma generate_qr_code_data_raises :
  let now := mkDatetime 2024 1 2 3 4 5 0 in
  generate_qr_code_data (10 ^ 4300) [1] now = Raises ValueError
  /\ generate_qr_code_data 1 [2; - 10 ^ 4300] now = Raises ValueError
  /\ exists data, generate_qr_code_data (10 ^ 4300 - 1) [1] now = Returns data.
Proof.
  intro now. rewrite !generate_qr_code_data_outcome.
  split; [vm_compute; reflexivity|].
  split; [vm_compute; reflexivity|].
  replace (all_convertible (10 ^ 4300 - 1) [1]) with true
    by (vm_compute; reflexivity).
  eexists. reflexivity.
Qed.

(** C5: whatever the time, for a user identifier and a list of dog
    identifiers of at most 4300 digits each the encoder returns a text,
    decoding that text succeeds, and the decoded dict holds the identifier
    and the list as they were given, the list in its order. *)
Theorem qr_code_round_trip (user_id : Z) (dog_ids : list Z) (now : datetime) :
  all_convertible user_id dog_ids = true ->
  exists data,
    generate_qr_code_data user_id dog_ids now = Returns data
    /\ validate_qr_code_data data
       = Returns (Some (entry_payload user_id dog_ids now))
    /\ getitem (entry_payload user_id dog_ids now) "user_id" = Ok (PInt user_id)
    /\ getitem (entry_payload user_id dog_ids now) "dog_ids"
       = Ok (PList (map PInt dog_ids)).
Proof.
  intro C. exists (entry_payload_text user_id dog_ids now).
  rewrite generate_qr_code_data_outcome, C.
  split; [reflexivity|]. split; [|split; reflexivity].
  unfold validate_qr_code_data. rewrite (literal_eval_entry_payload _ _ _ C).
  reflexivity.
Qed.

Lemma qr_code_round_trip_witness :
  let now := mkDatetime 2024 1 2 3 4 5 678 in
  all_convertible 7 [3; 1; 2] = true
  /\ exists data,
       generate_qr_code_data 7 [3; 1; 2] now = Returns data
       /\ validate_qr_code_data data = Returns (Some (entry_payload 7 [3; 1; 2] now))
       /\ getitem (entry_payload 7 [3; 1; 2] now) "user_id" = Ok (PInt 7)
       /\ getitem (entry_payload 7 [3; 1; 2] now) "dog_ids"
          = Ok (PList (map PInt [3; 1; 2])).
Proof.
  intro now. split; [reflexivity|].
  exact (qr_code_round_trip 7 [3; 1; 2] now eq_refl).
Defined.

Lemma pydict_get_member (d : list (pyval * pyval)) (key : string) :
  existsb (fun kv => key_eqb (fst kv) (PStr key)) d = true ->
  exists v, pydict_get d (PStr key) = Some v.
Proof.
  induction d as [|[k v] d IH]; simpl; [discriminate|].
  destruct (key_eqb k (PStr key)); simpl; [eauto|exact IH].
Qed.

(** On an input that evaluates to a dict the decoder returns the dict or the
    invalid result, and raises nothing. *)
Lemma validate_qr_code_data_dict (data : string) (d : list (pyval * pyval)) :
  literal_eval data = Returns (PDict d) ->
  validate_qr_code_data data = Returns None
  \/ validate_qr_code_data data = Returns (Some (PDict d)).
Proof.
  intro H. unfold validate_qr_code_data. rewrite H.
  unfold all_in, required_keys, contains.
  destruct (existsb (fun kv => key_eqb (fst kv) (PStr "user_id")) d); auto.
  destruct (existsb (fun kv => key_eqb (fst kv) (PStr "dog_ids")) d); auto.
  destruct (existsb (fun kv => key_eqb (fst kv) (PStr "timestamp")) d); auto.
  destruct (existsb (fun kv => key_eqb (fst kv) (PStr "type")) d) eqn:T; auto.
  destruct (pydict_get_member d "type" T) as [v V].
  unfold getitem. rewrite V.
  destruct (key_eqb v (PStr "dogrun_entry")); auto.
Qed.

(** An input that is no literal at all (here: empty, or cut short) is
    answered with the invalid result. *)
Lemma validate_qr_code_data_syntax_error :
  validate_qr_code_data "" = Returns None
  /\ validate_qr_code_data "{'user_id': 1" = Returns None.
Proof. split; reflexivity. Qed.

(** C4: an input that is a well-formed literal but no dict makes the decoder
    raise [TypeError], which its [except] clause does not catch: a number at
    the membership test, a list or a string that holds the four key names at
    the subscript. *)
Theorem validate_qr_code_data_raises :
  validate_qr_code_data "5"
  = Raises (TypeError "argument of type 'int' is not iterable")
  /\ validate_qr_code_data "['user_id', 'dog_ids', 'timestamp', 'type']"
     = Raises (TypeError "list indices must be integers or slices, not str")
  /\ validate_qr_code_data "'user_id dog_ids timestamp type'"
     = Raises (TypeError "string indices must be integers, not 'str'")
  /\ validate_qr_code_data "{[1]: 2}"
     = Raises (TypeError "unhashable type: 'list'").
Proof. repeat split; vm_compute; reflexivity. Qed.

(** ** [validate_weight] *)

(** Induction over a string two characters at a time. *)
Lemma string_pair_ind (P : string -> Prop) :
  P EmptyString ->
  (forall c, P (String c EmptyString)) ->
  (forall c c' r, P r -> P (String c' r) -> P (String c (String c' r))) ->
  forall s, P s.
Proof.
  intros H0 H1 H2 s.
  assert (B : P s /\ forall c, P (String c s)).
  { induction s as [|c' r [IH1 IH2]]; split; auto. }
  apply B.
Qed.

Lemma remove_kg_step (c c' : ascii) (r : string) :
  remove_kg (String c (String c' r))
  = if Ascii.eqb c "k" && Ascii.eqb c' "g" then remove_kg r
    else String c (remove_kg (String c' r)).
Proof. reflexivity. Qed.

Lemma float_of_string_raises (s : string) (e : exn) :
  float_of_string s = Raises e -> e = ValueError.
Proof.
  unfold float_of_string.
  destruct (negb (is_ascii s) || _); [discriminate|].
  destruct (split_sign (rstrip (lstrip s))) as [negative r0].
  destruct (_ || _); [discriminate|].
  destruct (String.eqb _ _); [discriminate|].
  destruct (scan_number negative r0); [discriminate|].
  intros [= <-]. reflexivity.
Qed.


(** *** Powers of two of either sign *)











(** *** Rounding to the nearest integer, ties to even *)

Section RoundHalfEven.

Variables n d : Z.
Hypothesis D : 0 < d.






End RoundHalfEven.

(** *** The binade and the scaled fraction *)

Section Binade.

Variables num den : Z.
Hypothesis N : 0 < num.
Hypothesis D : 0 < den.



End Binade.



(** *** The significand and the exponent [binary64_round] computes *)

Section Scaled.

Variables num den : Z.
Hypothesis N : 0 < num.
Hypothesis D : 0 < den.

Let k := binade num den.
Let e := Z.max (k - 52) (-1074).
Let n := num * pow2 (- e).
Let d := den * pow2 e.
Let m := round_half_even n d.










End Scaled.

(** *** The weights [validate_weight] accepts *)

Lemma float_0_1_value : float_0_1 = FFinite false 7205759403792794 (-56).
Proof. vm_compute. reflexivity. Qed.







(** *** From the text to the number *)









(** The bounds lie just outside the interval from one tenth to one hundred:
    a decimal below one tenth that rounds to the literal [0.1] is accepted,
    and so is one above one hundred that rounds to [100.0].  A blank that
    [float] does not strip (here the character 28) makes the text no
    number. *)
Lemma validate_weight_rounding :
  (weight_min < Qmake 1 10)%Q /\ (inject_Z 100 < weight_max)%Q
  /\ validate_weight "0.1kg" = Returns true
  /\ validate_weight "100kg" = Returns true
  /\ validate_weight "0.09999999999999999999" = Returns true
  /\ validate_weight "0.0999" = Returns false
  /\ validate_weight "100.00000000000000001" = Returns true
  /\ validate_weight "100.1" = Returns false
  /\ validate_weight " 7 " = Returns true
  /\ validate_weight (String "028" "7") = Returns false
  /\ validate_weight "-0.0" = Returns false
  /\ validate_weight "inf" = Returns false
  /\ validate_weight "nan" = Returns false.
Proof. repeat split; vm_compute; reflexivity. Qed.


(** * Further properties of the handlers *)

Section MoreHandlerProperties.

Variable pwd_context_hash : string -> string.
Variable pwd_context_verify : string -> option string -> result bool.
Variable jwt_encode : list (string * value) -> string -> string -> string.
Variable SECRET_KEY : string.


(** X2: on a store without the test user every handler that depends on
    [get_current_user] raises [TypeError] from the [User] constructor and
    leaves the state as it was: the dummy user is never created. *)
Theorem handlers_without_test_user (w : World) (authorization : option string) :
  find (email_is "test@example.com") (users (store w)) = None ->
  let e := TypeError "'user_name' is an invalid keyword argument for User" in
  get_current_user pwd_context_hash w = (Raise e, w)
  /\ get_current_user_info pwd_context_hash authorization w = (Raise e, w)
  /\ (forall request,
         update_user_profile pwd_context_hash authorization request w
         = (Raise e, w))
  /\ (forall post_id,
         like_post pwd_context_hash authorization post_id w = (Raise e, w))
  /\ get_user_dogs pwd_context_hash authorization w = (Raise e, w)
  /\ (forall request,
         add_dog pwd_context_hash authorization request w = (Raise e, w)).
Proof.
  intros H e.
  assert (G : get_current_user pwd_context_hash w = (Raise e, w)).
  { rewrite get_current_user_result, H. reflexivity. }
  repeat split; try exact G; intros;
    unfold get_current_user_info, update_user_profile, like_post,
      get_user_dogs, add_dog, bind; rewrite G; reflexivity.
Qed.

(** X3: [forgot_password] answers with the confirmation message exactly when
    some stored user has the address, and with the 404 exception otherwise;
    unlike [login], its response tells whether an address is registered.  It
    changes nothing. *)
Theorem forgot_password_reveals_registration (email : string) (w : World) :
  (fst (forgot_password email w)
   = Ok [("message", VStr "パスワードリセットメールを送信しました")]
   <-> exists u, In u (users (store w)) /\ User_email u = Some email)
  /\ (fst (forgot_password email w)
      = Raise (HTTPException 404 "ユーザーが見つかりません")
      <-> forall u, In u (users (store w)) -> User_email u <> Some email)
  /\ snd (forgot_password email w) = w.
Proof.
  unfold forgot_password, bind, db_query_user_first. simpl.
  destruct (find (email_is email) (users (store w))) as [u|] eqn:F; simpl.
  - apply find_some in F. destruct F as [I E]. apply email_is_spec in E.
    split; [|split; [|reflexivity]].
    + split; [intros _; exists u; auto|reflexivity].
    + split; [discriminate|]. intro H. exfalso. apply (H u I E).
  - split; [|split; [|reflexivity]].
    + split; [discriminate|]. intros [u [I E]].
      apply email_is_spec in E. pose proof (find_none _ _ F u I) as N.
      rewrite E in N. discriminate.
    + split; [|reflexivity]. intros _ u I E.
      apply email_is_spec in E. pose proof (find_none _ _ F u I) as N.
      rewrite E in N. discriminate.
Qed.

(** X4: likes add up: [n] committed likes in a row on a post take its like
    count from [k] to [k + n], as long as the caller identity resolves. *)
Theorem likes_accumulate (n : nat) :
  forall (db : Database) (post_id now : Z) (u : User) (k : Z),
    find (email_is "test@example.com") (users db) = Some u ->
    NoDup (map Post_id (posts db)) ->
    likes_of db post_id = Some k ->
    likes_of (after_likes pwd_context_hash n post_id now db) post_id
    = Some (k + Z.of_nat n).
Proof.
  induction n as [|n IH]; intros db post_id now u k U ND L.
  - simpl. rewrite Z.add_0_r. exact L.
  - destruct (after_like_found pwd_context_hash None post_id now db u k U ND L)
      as [U1 [ND1 L1]].
    cbn [after_likes].
    rewrite (IH _ post_id (now + 1) u (k + 1) U1 ND1 L1).
    f_equal. lia.
Qed.

(** X5: a like whose commit the engine fails raises the engine's error and
    leaves every stored row as it was. *)
Theorem like_post_commit_failure (authorization : option string)
    (post_id : Z) (db : Database) (fs : list bool) (now : Z) (u : User)
    (p : Post) :
  find (email_is "test@example.com") (users db) = Some u ->
  find (fun p => Post_id p =? post_id) (posts db) = Some p ->
  let r := like_post pwd_context_hash authorization post_id
             (request_world db (true :: fs) now) in
  fst r = Raise OperationalError /\ store (snd r) = db.
Proof.
  intros U F r. subst r. unfold like_post, bind.
  rewrite get_current_user_result. unfold request_world at 1. simpl.
  rewrite U. unfold db_query_post_first. simpl. rewrite F.
  split; reflexivity.
Qed.

End MoreHandlerProperties.

Lemma NoDup_map_eq {A B} (f : A -> B) (l : list A) (x y : A) :
  NoDup (map f l) -> In x l -> In y l -> f x = f y -> x = y.
Proof.
  induction l as [|a l IH]; simpl; [intros _ []|].
  intros ND Ix Iy E. inversion ND as [|? ? NI ND']; subst.
  destruct Ix as [->|Ix], Iy as [->|Iy]; auto.
  - exfalso. apply NI. rewrite E. apply in_map, Iy.
  - exfalso. apply NI. rewrite <- E. apply in_map, Ix.
Qed.

Lemma flush_user_profile_email (request : UpdateUserProfileRequest)
    (pk now : Z) (x : User) :
  User_id (flush_user now (profile_assignments pk request) x) = User_id x
  /\ User_email (flush_user now (profile_assignments pk request) x)
     = User_email x.
Proof.
  destruct (flush_user_profile request pk now x) as [A [B _]]. auto.
Qed.

Lemma find_map_email (f : User -> User) (e : string) (l : list User) :
  (forall x, User_email (f x) = User_email x) ->
  find (email_is e) (map f l) = option_map f (find (email_is e) l).
Proof.
  intro H. induction l as [|a l IH]; simpl; [reflexivity|].
  unfold email_is at 1. rewrite H. fold (email_is e a).
  destruct (email_is e a); [reflexivity|exact IH].
Qed.

Section MoreProfileProperties.

Variable pwd_context_hash : string -> string.

(** A profile update whose values the caller's row already holds writes
    nothing. *)
Lemma update_user_profile_same_values (authorization : option string)
    (request : UpdateUserProfileRequest) (db : Database) (fs : list bool)
    (now : Z) (u : User) :
  find (email_is "test@example.com") (users db) = Some u ->
  NoDup (map User_id (users db)) ->
  User_full_name u = Some (upd_full_name request) ->
  User_address u = Some (upd_address request) ->
  User_phone_number u = Some (upd_phone_number request) ->
  User_imabari_residency u = Some (upd_imabari_residency request) ->
  store (snd (update_user_profile pwd_context_hash authorization request
                (request_world db fs now))) = db.
Proof.
  intros U ND A B C D.
  rewrite (update_user_profile_store _ _ _ _ _ _ u U).
  destruct fs as [|[|] fs]; try reflexivity;
    (destruct db as [us ds ps]; simpl in *; f_equal;
     apply map_id_on; intros x I;
     destruct (Z.eq_dec (User_id x) (User_id u)) as [E|E];
     [ assert (x = u)
         by (apply (NoDup_map_eq User_id us); auto;
             apply find_some in U; tauto);
       subst x; unfold flush_user, profile_assignments; simpl;
       rewrite Z.eqb_refl; simpl;
       match goal with
       | |- (if User_eqb u ?y then _ else _) = _ =>
           replace y with u; [|destruct u; simpl in *; subst; reflexivity]
       end;
       replace (User_eqb u u) with true
         by (symmetry; apply User_eqb_eq; reflexivity);
       reflexivity
     | apply flush_user_untouched; unfold profile_assignments; simpl;
       replace (User_id u =? User_id x) with false
         by (symmetry; apply Z.eqb_neq; congruence);
       reflexivity ]).
Qed.

(** X6: a profile update is idempotent: once an update is committed, the
    same request again, at any later time, changes no stored row, not even
    [updated_at]. *)
Theorem update_user_profile_idempotent (a1 a2 : option string)
    (request : UpdateUserProfileRequest) (db : Database) (fs : list bool)
    (now1 now2 : Z) (u : User) :
  find (email_is "test@example.com") (users db) = Some u ->
  NoDup (map User_id (users db)) ->
  let db1 := store (snd (update_user_profile pwd_context_hash a1 request
                           (request_world db [] now1))) in
  store (snd (update_user_profile pwd_context_hash a2 request
                (request_world db1 fs now2))) = db1.
Proof.
  intros U ND db1.
  assert (E1 : db1 = mkDatabase
                       (map (flush_user now1
                               (profile_assignments (User_id u) request))
                            (users db))
                       (dogs db) (posts db)).
  { subst db1. rewrite (update_user_profile_store _ _ _ _ _ _ u U).
    reflexivity. }
  set (f := flush_user now1 (profile_assignments (User_id u) request)) in *.
  assert (U1 : find (email_is "test@example.com") (users db1) = Some (f u)).
  { rewrite E1. simpl. rewrite find_map_email.
    - rewrite U. reflexivity.
    - intro x. apply flush_user_profile_email. }
  assert (ND1 : NoDup (map User_id (users db1))).
  { rewrite E1. simpl. rewrite map_map.
    erewrite map_ext; [exact ND|].
    intro x. apply flush_user_profile_email. }
  destruct (flush_user_profile request (User_id u) now1 u)
    as [_ [_ [_ [_ [_ [_ V]]]]]].
  destruct (V eq_refl I) as [A [B [C D]]].
  apply (update_user_profile_same_values a2 request db1 fs now2 (f u));
    assumption.
Qed.

End MoreProfileProperties.

(** ** Token claims *)

Lemma dict_get_set_same {V} (d : list (string * V)) (k : string) (v : V) :
  dict_get (dict_set d k v) k = Some v.
Proof.
  induction d as [|[k' v'] d IH]; simpl.
  - rewrite String.eqb_refl. reflexivity.
  - destruct (String.eqb k' k) eqn:E; simpl.
    + rewrite String.eqb_refl. reflexivity.
    + rewrite E. exact IH.
Qed.

Lemma dict_get_set_other {V} (d : list (string * V)) (k j : string) (v : V) :
  j <> k -> dict_get (dict_set d k v) j = dict_get d j.
Proof.
  intro N. induction d as [|[k' v'] d IH]; simpl.
  - replace (String.eqb k j) with false; [reflexivity|].
    symmetry. apply String.eqb_neq. congruence.
  - destruct (String.eqb k' k) eqn:E; simpl.
    + apply String.eqb_eq in E. subst k'.
      replace (String.eqb k j) with false; [reflexivity|].
      symmetry. apply String.eqb_neq. congruence.
    + rewrite IH. reflexivity.
Qed.

Section TokenProperties.

Variable jwt_encode : list (string * value) -> string -> string -> string.
Variable SECRET_KEY : string.

(** X7: the claims [create_access_token] hands to the encoder are the
    caller's claims with [exp] set, an [exp] of the caller's own included: it
    is the time of the call plus the caller's [expires_delta], or plus
    fifteen minutes when that is absent or zero.  Every other claim is
    passed as given. *)
Theorem create_access_token_claims (data : list (string * value))
    (expires_delta : option Z) (now : Z) :
  exists claims,
    create_access_token jwt_encode SECRET_KEY data expires_delta now
    = jwt_encode claims SECRET_KEY ALGORITHM
    /\ dict_get claims "exp"
       = Some (VDateTime
                 (now + match expires_delta with
                        | Some 0 | None => timedelta_minutes 15
                        | Some d => d
                        end))
    /\ (forall k, k <> "exp" -> dict_get claims k = dict_get data k).
Proof.
  unfold create_access_token. eexists. split; [reflexivity|]. split.
  - rewrite dict_get_set_same. destruct expires_delta as [[|d|d]|]; reflexivity.
  - intros k K. apply dict_get_set_other. exact K.
Qed.

End TokenProperties.

(** ** Dogs *)

Lemma fold_max_ge (l : list Z) (x : Z) : In x l -> x <= fold_right Z.max 0 l.
Proof.
  induction l as [|a l IH]; simpl; [intros []|].
  intros [->|I]; [lia|]. specialize (IH I). lia.
Qed.

(** The key the engine gives a new row is the key of no row of the table. *)
Lemma next_pk_fresh (pks : list Z) : ~ In (next_pk pks) pks.
Proof.
  intro I. apply fold_max_ge in I. unfold next_pk in I. lia.
Qed.

Lemma find_app_fresh (ds : list Dog) (d : Dog) :
  ~ In (Dog_id d) (map Dog_id ds) ->
  find (fun x => Dog_id x =? Dog_id d) (ds ++ [d]) = Some d.
Proof.
  induction ds as [|a ds IH]; simpl; intro N.
  - rewrite Z.eqb_refl. reflexivity.
  - destruct (Dog_id a =? Dog_id d) eqn:E.
    + exfalso. apply N. left. apply Z.eqb_eq. exact E.
    + apply IH. intro I. apply N. right. exact I.
Qed.

Lemma DogResponse_list_app (ds : list Dog) (d : Dog) (bs : list body) (b : body) :
  DogResponse_list ds = Ok bs -> DogResponse_from_orm d = Ok b ->
  DogResponse_list (ds ++ [d]) = Ok (bs ++ [b])%list.
Proof.
  revert bs. induction ds as [|a ds IH]; simpl; intros bs H B.
  - injection H as <-. rewrite B. reflexivity.
  - destruct (DogResponse_from_orm a) as [x|]; [|discriminate].
    destruct (DogResponse_list ds) as [xs|]; [|discriminate].
    injection H as <-. rewrite (IH xs eq_refl B). reflexivity.
Qed.

Section DogProperties.

Variable pwd_context_hash : string -> string.

(** What a committed [add_dog] does. *)
Lemma add_dog_result (authorization : option string) (request : AddDogRequest)
    (db : Database) (fs : list bool) (now : Z) (u : User) :
  find (email_is "test@example.com") (users db) = Some u ->
  commit_succeeds fs ->
  let d := added_dog request (User_id u) (next_pk (map Dog_id (dogs db))) now in
  exists w',
    add_dog pwd_context_hash authorization request (request_world db fs now)
    = (DogResponse_from_orm d, w')
    /\ store w' = mkDatabase (users db) (dogs db ++ [d]) (posts db).
Proof.
  intros U C d.
  unfold add_dog, bind. rewrite get_current_user_result.
  unfold request_world at 1. simpl. rewrite U.
  assert (F : find (fun x => Dog_id x =? Dog_id d) (dogs db ++ [d]) = Some d).
  { apply find_app_fresh. apply next_pk_fresh. }
  assert (MU : forall i,
             map (flush_user now [InsertDog 0 i]) (users db) = users db).
  { intro i. apply map_id_on. intros x _. apply flush_user_untouched.
    reflexivity. }
  assert (MP : forall i,
             map (flush_post now [InsertDog 0 i]) (posts db) = posts db).
  { intro i. apply map_id_on. intros x _. apply flush_post_untouched.
    reflexivity. }
  destruct fs as [|[|] fs]; [| discriminate C |];
    (unfold lift, db_add_dog, db_commit, db_refresh_dog, enqueue, flush;
     simpl; rewrite MU, MP; simpl;
     change (Dog_row (next_pk (map Dog_id (dogs db))) now _) with d;
     change (next_pk (map Dog_id (dogs db))) with (Dog_id d);
     rewrite F; simpl; eexists; split; reflexivity).
Qed.

(** X8: a committed [add_dog] appends exactly one dog: it carries the values
    of the request, the caller as owner, and a key no stored dog has, so keys
    stay unique; users, posts and the dogs already stored are untouched; the
    response shows the new dog. *)
Theorem add_dog_appends (authorization : option string)
    (request : AddDogRequest) (db : Database) (fs : list bool) (now : Z)
    (u : User) :
  find (email_is "test@example.com") (users db) = Some u ->
  commit_succeeds fs ->
  NoDup (map Dog_id (dogs db)) ->
  let pk := next_pk (map Dog_id (dogs db)) in
  let r := add_dog pwd_context_hash authorization request
             (request_world db fs now) in
  fst r = Ok [("name", VStr (add_name request));
              ("breed", VStr (add_breed request));
              ("weight", VStr (add_weight request));
              ("personality", VStrList (add_personality request));
              ("last_vaccination_date", VStr (add_last_vaccination_date request));
              ("id", VInt pk); ("owner_id", VInt (User_id u));
              ("created_at", VDateTime now)]
  /\ dogs (store (snd r))
     = (dogs db ++ [added_dog request (User_id u) pk now])%list
  /\ users (store (snd r)) = users db
  /\ posts (store (snd r)) = posts db
  /\ NoDup (map Dog_id (dogs (store (snd r)))).
Proof.
  intros U C ND pk r.
  destruct (add_dog_result authorization request db fs now u U C) as [w' [R S]].
  subst r. rewrite R. simpl. rewrite S. simpl.
  repeat split; try reflexivity.
  rewrite map_app. simpl. apply NoDup_app.
  - exact ND.
  - constructor; [intros []|constructor].
  - intros x I [<-|[]]. apply (next_pk_fresh _ I).
Qed.

(** X9: after a committed [add_dog], the list of the caller's dogs is the
    list it was before with the new dog at its end. *)
Theorem get_user_dogs_after_add_dog (a1 a2 : option string)
    (request : AddDogRequest) (db : Database) (fs : list bool) (now1 now2 : Z)
    (u : User) (before : list body) :
  find (email_is "test@example.com") (users db) = Some u ->
  fst (get_user_dogs pwd_context_hash a1 (request_world db fs now1))
  = Ok before ->
  let r := add_dog pwd_context_hash a2 request (request_world db [] now1) in
  exists added,
    fst r = Ok added
    /\ fst (get_user_dogs pwd_context_hash a1
              (request_world (store (snd r)) fs now2))
       = Ok (before ++ [added])%list.
Proof.
  intros U G r.
  destruct (add_dog_result a2 request db [] now1 u U eq_refl) as [w' [R S]].
  subst r. rewrite R. simpl. rewrite S.
  set (d := added_dog request (User_id u) (next_pk (map Dog_id (dogs db))) now1)
    in *.
  exists [("name", VStr (add_name request));
          ("breed", VStr (add_breed request));
          ("weight", VStr (add_weight request));
          ("personality", VStrList (add_personality request));
          ("last_vaccination_date", VStr (add_last_vaccination_date request));
          ("id", VInt (Dog_id d)); ("owner_id", VInt (User_id u));
          ("created_at", VDateTime now1)].
  split; [reflexivity|].
  revert G. unfold get_user_dogs, bind. rewrite !get_current_user_result.
  unfold request_world. simpl. rewrite U.
  unfold db_query_dog_all, lift. simpl. intro G.
  rewrite filter_app. simpl.
  replace (owned_by (User_id u) d) with true
    by (unfold owned_by; simpl; rewrite Z.eqb_refl; reflexivity).
  destruct (DogResponse_list (filter (owned_by (User_id u)) (dogs db)))
    as [bs|] eqn:L; simpl in G; [|discriminate G].
  injection G as <-.
  rewrite (DogResponse_list_app _ d bs _ L eq_refl). reflexivity.
Qed.

End DogProperties.

(** * Properties of the validators and the text helpers *)

(** ** The matcher decides the language *)

Module RegexFacts.

Import Regex.

Lemma append_nil_r (s : string) : s ++ EmptyString = s.
Proof. induction s; simpl; [reflexivity|rewrite IHs; reflexivity]. Qed.

Lemma append_eq_nil (a b : string) :
  a ++ b = EmptyString -> a = EmptyString /\ b = EmptyString.
Proof. destruct a; simpl; [auto|discriminate]. Qed.

Lemma nullable_lang (r : regex) : nullable r = true <-> lang r EmptyString.
Proof.
  induction r; simpl.
  - split; [discriminate|]. intro H. inversion H.
  - split; [constructor|reflexivity].
  - split; [discriminate|]. intro H. inversion H.
  - rewrite andb_true_iff, IHr1, IHr2. split.
    + intros [A B]. apply (lang_seq _ _ EmptyString EmptyString); assumption.
    + intro H. inversion H as [| |a b s1 s2 A B E| | | |]; subst.
      match goal with Q : _ ++ _ = EmptyString |- _ =>
        apply append_eq_nil in Q; destruct Q; subst end.
      auto.
  - rewrite orb_true_iff, IHr1, IHr2. split.
    + intros [A|B]; [apply lang_alt_l|apply lang_alt_r]; assumption.
    + intro H. inversion H; subst; auto.
  - split; [constructor|reflexivity].
Qed.

Lemma deriv_sound (r : regex) :
  forall c s, lang (deriv c r) s -> lang r (String c s).
Proof.
  induction r; intros c s H; simpl in H.
  - inversion H.
  - inversion H.
  - destruct (p c) eqn:P; inversion H; subst. constructor. exact P.
  - destruct (nullable r1) eqn:N.
    + inversion H as [| | |a b t A| a b t B| |]; subst.
      * inversion A as [| |a b s1 s2 A1 A2 E| | | |]; subst.
        apply (lang_seq r1 r2 (String c s1) s2); auto.
      * apply (lang_seq r1 r2 EmptyString (String c s)); auto.
        apply nullable_lang. exact N.
    + inversion H as [| |a b s1 s2 A1 A2 E| | | |]; subst.
      apply (lang_seq r1 r2 (String c s1) s2); auto.
  - inversion H; subst; [apply lang_alt_l|apply lang_alt_r]; auto.
  - inversion H as [| |a b s1 s2 A1 A2 E| | | |]; subst.
    apply (lang_star_cons r (String c s1) s2); auto.
Qed.

Lemma deriv_complete (r : regex) (s0 : string) :
  lang r s0 -> forall c s, s0 = String c s -> lang (deriv c r) s.
Proof.
  induction 1 as [|p c0 P|r1 r2 s1 s2 H1 IH1 H2 IH2|r1 r2 s0 H IH
                  |r1 r2 s0 H IH|r|r s1 s2 H1 IH1 H2 IH2];
    intros c s E; simpl.
  - discriminate.
  - injection E as -> <-. rewrite P. constructor.
  - destruct s1 as [|c1 s1]; simpl in E.
    + subst s2.
      assert (N : nullable r1 = true) by (apply nullable_lang; exact H1).
      rewrite N. apply lang_alt_r. apply IH2. reflexivity.
    + injection E as -> <-.
      assert (L : lang (Seq (deriv c r1) r2) (s1 ++ s2)).
      { constructor; [apply IH1; reflexivity|exact H2]. }
      destruct (nullable r1); [apply lang_alt_l|]; exact L.
  - apply lang_alt_l. apply IH. exact E.
  - apply lang_alt_r. apply IH. exact E.
  - discriminate.
  - destruct s1 as [|c1 s1]; simpl in E.
    + apply IH2. exact E.
    + injection E as -> <-. constructor; [apply IH1; reflexivity|exact H2].
Qed.

Theorem matches_lang (s : string) : forall r, matches r s = true <-> lang r s.
Proof.
  induction s as [|c s IH]; intro r; simpl.
  - apply nullable_lang.
  - rewrite IH. split.
    + apply deriv_sound.
    + intro H. apply (deriv_complete r _ H). reflexivity.
Qed.

(** The languages of the pieces the patterns are made of. *)

Lemma lang_lit (c : ascii) (s : string) :
  lang (lit c) s <-> s = String c EmptyString.
Proof.
  split.
  - intro H. inversion H as [|p c0 P| | | | |]; subst.
    apply Ascii.eqb_eq in P. subst. reflexivity.
  - intros ->. constructor. apply Ascii.eqb_refl.
Qed.

Lemma lang_star_chr (p : ascii -> bool) (s : string) :
  lang (Star (Chr p)) s <-> Validation.all_chars p s = true.
Proof.
  split.
  - remember (Star (Chr p)) as r eqn:R. intro H.
    induction H as [| | | | |r0|r0 s1 s2 H1 _ H2 IH2]; try discriminate.
    + reflexivity.
    + injection R as ->. inversion H1; subst. simpl.
      rewrite (IH2 eq_refl). rewrite andb_true_r. assumption.
  - induction s as [|c s IH]; simpl; intro H; [constructor|].
    apply andb_true_iff in H. destruct H as [P A].
    apply (lang_star_cons (Chr p) (String c EmptyString) s).
    + constructor. exact P.
    + apply IH. exact A.
Qed.

Lemma lang_at_least_chr (n : nat) (p : ascii -> bool) :
  forall s, lang (at_least n (Chr p)) s
            <-> (n <= String.length s)%nat /\ Validation.all_chars p s = true.
Proof.
  induction n as [|n IH]; intro s; simpl.
  - rewrite lang_star_chr. split; [intro; split; [lia|assumption]|tauto].
  - split.
    + intro H. inversion H as [| |a b s1 s2 H1 H2 E| | | |]; subst.
      inversion H1; subst. apply IH in H2. destruct H2 as [L A].
      simpl. split; [lia|]. rewrite A, andb_true_r. assumption.
    + intros [L A]. destruct s as [|c s]; simpl in *; [lia|].
      apply andb_true_iff in A. destruct A as [P A].
      apply (lang_seq (Chr p) _ (String c EmptyString) s).
      * constructor. exact P.
      * apply IH. split; [lia|exact A].
Qed.

Lemma lang_plus_chr (p : ascii -> bool) (s : string) :
  lang (plus (Chr p)) s
  <-> s <> EmptyString /\ Validation.all_chars p s = true.
Proof.
  change (plus (Chr p)) with (at_least 1 (Chr p)).
  rewrite lang_at_least_chr. split; intros [L A]; split; auto.
  - intros ->. simpl in L. lia.
  - destruct s; [congruence|simpl; lia].
Qed.

Lemma lang_end_of_string (s : string) :
  lang end_of_string s <-> s = EmptyString \/ s = String "010" EmptyString.
Proof.
  unfold end_of_string. split.
  - intro H. inversion H as [| | |a b t A|a b t B| |]; subst.
    + inversion A. auto.
    + apply lang_lit in B. auto.
  - intros [->| ->]; [apply lang_alt_l; constructor|].
    apply lang_alt_r. apply lang_lit. reflexivity.
Qed.

Lemma lang_seq_inv (r1 r2 : regex) (s : string) :
  lang (Seq r1 r2) s <-> exists s1 s2, s = s1 ++ s2 /\ lang r1 s1 /\ lang r2 s2.
Proof.
  split.
  - intro H. inversion H; subst. eauto.
  - intros [s1 [s2 [-> [A B]]]]. constructor; assumption.
Qed.

End RegexFacts.

Import Validation.

(** X10: [validate_email] accepts exactly the strings made of a non-empty
    local part of letters, digits and [._%+-], an [@], a non-empty domain of
    letters, digits, dots and hyphens, a dot, and two or more letters,
    possibly followed by one newline.  So a string without [@] is rejected,
    and so is one whose last label is shorter than two letters. *)
Theorem validate_email_accepts (email : string) :
  validate_email email = true
  <-> exists local_part domain tld ending,
        email = local_part ++ String "@" (domain ++ String "." (tld ++ ending))
        /\ local_part <> EmptyString /\ all_chars local_char local_part = true
        /\ domain <> EmptyString /\ all_chars domain_char domain = true
        /\ (2 <= String.length tld)%nat /\ all_chars letter_char tld = true
        /\ (ending = EmptyString \/ ending = String "010" EmptyString).
Proof.
  unfold validate_email, email_pattern. rewrite RegexFacts.matches_lang.
  split.
  - intro H.
    apply RegexFacts.lang_seq_inv in H. destruct H as [l [r1 [-> [L H]]]].
    apply RegexFacts.lang_seq_inv in H. destruct H as [a [r2 [-> [A H]]]].
    apply RegexFacts.lang_seq_inv in H. destruct H as [d [r3 [-> [D H]]]].
    apply RegexFacts.lang_seq_inv in H. destruct H as [p [r4 [-> [P H]]]].
    apply RegexFacts.lang_seq_inv in H. destruct H as [t [e [-> [T E]]]].
    apply RegexFacts.lang_lit in A. apply RegexFacts.lang_lit in P. subst a p.
    apply RegexFacts.lang_plus_chr in L. apply RegexFacts.lang_plus_chr in D.
    apply RegexFacts.lang_at_least_chr in T.
    apply RegexFacts.lang_end_of_string in E.
    exists l, d, t, e. simpl. tauto.
  - intros [l [d [t [e [-> [L1 [L2 [D1 [D2 [T1 [T2 E]]]]]]]]]]].
    constructor; [apply RegexFacts.lang_plus_chr; auto|].
    apply (Regex.lang_seq _ _ (String "@" EmptyString));
      [apply RegexFacts.lang_lit; reflexivity|].
    constructor; [apply RegexFacts.lang_plus_chr; auto|].
    apply (Regex.lang_seq _ _ (String "." EmptyString));
      [apply RegexFacts.lang_lit; reflexivity|].
    constructor; [apply RegexFacts.lang_at_least_chr; auto|].
    apply RegexFacts.lang_end_of_string. exact E.
Qed.

(** X11: [validate_phone_number] accepts exactly the strings that start with
    [+81] or [0] and go on with nine or more characters, each a digit or a
    hyphen, possibly followed by one newline.  Nothing asks for a digit
    among them. *)
Theorem validate_phone_number_accepts (phone : string) :
  validate_phone_number phone = true
  <-> exists prefix rest ending,
        phone = prefix ++ rest ++ ending
        /\ (prefix = "+81" \/ prefix = "0")
        /\ (9 <= String.length rest)%nat /\ all_chars phone_char rest = true
        /\ (ending = EmptyString \/ ending = String "010" EmptyString).
Proof.
  unfold validate_phone_number, phone_pattern. rewrite RegexFacts.matches_lang.
  split.
  - intro H.
    apply RegexFacts.lang_seq_inv in H. destruct H as [p [r1 [-> [P H]]]].
    apply RegexFacts.lang_seq_inv in H. destruct H as [r [e [-> [R E]]]].
    apply RegexFacts.lang_at_least_chr in R.
    apply RegexFacts.lang_end_of_string in E.
    exists p, r, e. split; [reflexivity|]. split; [|tauto].
    inversion P as [| | |a b t A|a b t B| |]; subst.
    + left. simpl in A.
      apply RegexFacts.lang_seq_inv in A. destruct A as [x [y [-> [X A]]]].
      apply RegexFacts.lang_seq_inv in A. destruct A as [x2 [y2 [-> [X2 A]]]].
      apply RegexFacts.lang_seq_inv in A. destruct A as [x3 [y3 [-> [X3 A]]]].
      apply RegexFacts.lang_lit in X, X2, X3. inversion A. subst. reflexivity.
    + right. simpl in B.
      apply RegexFacts.lang_seq_inv in B. destruct B as [x [y [-> [X B]]]].
      apply RegexFacts.lang_lit in X. inversion B. subst. reflexivity.
  - intros [p [r [e [-> [P [R1 [R2 E]]]]]]].
    constructor.
    + destruct P as [-> | ->]; [apply Regex.lang_alt_l|apply Regex.lang_alt_r];
        apply RegexFacts.matches_lang; reflexivity.
    + constructor; [apply RegexFacts.lang_at_least_chr; auto|].
      apply RegexFacts.lang_end_of_string. exact E.
Qed.

Lemma any_char_exists (p : ascii -> bool) (s : string) :
  any_char p s = true <-> exists c, In c (list_ascii_of_string s) /\ p c = true.
Proof.
  induction s as [|c s IH]; simpl.
  - split; [discriminate|]. intros [c [[] _]].
  - rewrite orb_true_iff, IH. split.
    + intros [P|[x [I P]]]; [exists c; auto|exists x; auto].
    + intros [x [[<-|I] P]]; [auto|right; exists x; auto].
Qed.

Lemma any_char_all_chars (p q : ascii -> bool) (s : string) :
  (forall c, p c = true -> q c = false) ->
  all_chars p s = true -> any_char q s = false.
Proof.
  intro D. induction s as [|c s IH]; simpl; [reflexivity|].
  intro H. apply andb_true_iff in H. destruct H as [P A].
  rewrite (D c P), (IH A). reflexivity.
Qed.

Lemma digit_not_letter (c : ascii) : digit_char c = true -> letter_char c = false.
Proof.
  unfold digit_char, letter_char, in_range.
  rewrite andb_true_iff, orb_false_iff, !andb_false_iff, !N.leb_le, !N.leb_gt.
  lia.
Qed.

Lemma letter_not_digit (c : ascii) : letter_char c = true -> digit_char c = false.
Proof.
  unfold digit_char, letter_char, in_range.
  rewrite orb_true_iff, !andb_true_iff, andb_false_iff, !N.leb_le, !N.leb_gt.
  lia.
Qed.

(** X12: on an ASCII string [validate_password] is true exactly when the
    string has at least the configured number of characters, a digit and a
    letter; a password of digits only, of letters only, or too short is
    rejected whatever else holds. *)
Theorem validate_password_accepts (settings : Config.Settings) (password : string) :
  is_ascii password = true ->
  (validate_password settings password = Returns true
   <-> Config.min_password_length settings <= Z.of_nat (String.length password)
       /\ (exists c, In c (list_ascii_of_string password) /\ digit_char c = true)
       /\ (exists c, In c (list_ascii_of_string password) /\ letter_char c = true))
  /\ (all_chars digit_char password = true ->
      validate_password settings password = Returns false)
  /\ (all_chars letter_char password = true ->
      validate_password settings password = Returns false).
Proof.
  intro A. unfold validate_password. rewrite A. simpl.
  destruct (Z.of_nat (String.length password)
            <? Config.min_password_length settings) eqn:L.
  - apply Z.ltb_lt in L. split; [|split; reflexivity].
    split; [discriminate|]. intros [H _]. lia.
  - apply Z.ltb_ge in L. split; [|split].
    + rewrite <- !any_char_exists. split.
      * intros [= H]. apply andb_true_iff in H. tauto.
      * intros [_ [D T]]. rewrite D, T. reflexivity.
    + intro D. rewrite (any_char_all_chars _ _ _ digit_not_letter D).
      rewrite andb_false_r. reflexivity.
    + intro T. rewrite (any_char_all_chars _ _ _ letter_not_digit T).
      reflexivity.
Qed.

(** ** [sanitize_filename] *)

Lemma remove_pair_head (a b c : ascii) (r : string) :
  Ascii.eqb c a = false ->
  remove_pair a b (String c r) = String c (remove_pair a b r).
Proof. intro H. destruct r; simpl; [reflexivity|]. rewrite H. reflexivity. Qed.

Lemma remove_pair_step (a b c c' : ascii) (r : string) :
  remove_pair a b (String c (String c' r))
  = if Ascii.eqb c a && Ascii.eqb c' b then remove_pair a b r
    else String c (remove_pair a b (String c' r)).
Proof. reflexivity. Qed.

Lemma remove_pair_all_chars (q : ascii -> bool) (a b : ascii) (s : string) :
  all_chars q s = true -> all_chars q (remove_pair a b s) = true.
Proof.
  induction s as [| c | c c' r IH1 IH2] using string_pair_ind; auto.
  intro H. rewrite remove_pair_step.
  pose proof H as H'. simpl in H'.
  apply andb_true_iff in H'. destruct H' as [Qc H'].
  destruct (Ascii.eqb c a && Ascii.eqb c' b).
  - apply IH1. apply andb_true_iff in H'. tauto.
  - cbn [all_chars]. rewrite Qc. simpl. apply IH2. exact H'.
Qed.

Lemma has_dot_dot_step (c c' : ascii) (r : string) :
  has_dot_dot (String c (String c' r))
  = (Ascii.eqb c "." && Ascii.eqb c' ".") || has_dot_dot (String c' r).
Proof. reflexivity. Qed.

Lemma remove_pair_no_dot_dot (s : string) :
  has_dot_dot (remove_pair "." "." s) = false.
Proof.
  induction s as [| c | c c' r IH1 IH2] using string_pair_ind;
    try reflexivity.
  rewrite remove_pair_step.
  destruct (Ascii.eqb c ".") eqn:C; destruct (Ascii.eqb c' ".") eqn:C';
    simpl andb; cbv iota.
  - exact IH1.
  - rewrite (remove_pair_head "." "." c' r C') in *.
    rewrite has_dot_dot_step, C', andb_false_r. exact IH2.
  - destruct (remove_pair "." "." (String c' r)) as [|x y] eqn:R;
      [reflexivity|].
    rewrite has_dot_dot_step, C. exact IH2.
  - destruct (remove_pair "." "." (String c' r)) as [|x y] eqn:R;
      [reflexivity|].
    rewrite has_dot_dot_step, C. exact IH2.
Qed.

Lemma keep_chars_all (p : ascii -> bool) (s : string) :
  all_chars p (keep_chars p s) = true.
Proof.
  induction s as [|c s IH]; simpl; [reflexivity|].
  destruct (p c) eqn:P; simpl; [rewrite P|]; exact IH.
Qed.

Lemma remove_char_absent (q : ascii -> bool) (a : ascii) (s : string) :
  q a = false -> all_chars q s = true -> remove_char a s = s.
Proof.
  intro N. induction s as [|c s IH]; simpl; [reflexivity|].
  intro H. apply andb_true_iff in H. destruct H as [Qc H].
  destruct (Ascii.eqb c a) eqn:E.
  - apply Ascii.eqb_eq in E. subst. congruence.
  - rewrite (IH H). reflexivity.
Qed.

Lemma all_chars_no_char (q : ascii -> bool) (a : ascii) (s : string) :
  q a = false -> all_chars q s = true -> contains_char a s = false.
Proof.
  intro N. induction s as [|c s IH]; simpl; [reflexivity|].
  intro H. apply andb_true_iff in H. destruct H as [Qc H].
  rewrite (IH H), orb_false_r. apply Ascii.eqb_neq. intros ->. congruence.
Qed.

(** X13: for every ASCII file name, what [sanitize_filename] returns has no
    two dots side by side, no slash and no backslash, and holds only letters,
    digits, underscores, hyphens and dots: it names no parent directory and
    no path. *)
Theorem sanitize_filename_safe (filename : string) :
  is_ascii filename = true ->
  exists r,
    sanitize_filename filename = Returns r
    /\ has_dot_dot r = false
    /\ contains_char "/" r = false
    /\ contains_char "\" r = false
    /\ all_chars filename_char r = true.
Proof.
  intro A. unfold sanitize_filename. rewrite A. simpl negb. cbv iota.
  set (k := keep_chars filename_char filename).
  set (p := remove_pair "." "." k).
  assert (Hp : all_chars filename_char p = true).
  { apply remove_pair_all_chars. apply keep_chars_all. }
  rewrite (remove_char_absent filename_char "/" p eq_refl Hp).
  rewrite (remove_char_absent filename_char "\" p eq_refl Hp).
  exists p. split; [reflexivity|]. split; [apply remove_pair_no_dot_dot|].
  split; [apply (all_chars_no_char filename_char); auto|].
  split; [apply (all_chars_no_char filename_char); auto|exact Hp].
Qed.

(** ** [truncate_text], [create_pagination_response], [calculate_age] *)

Import Text.

(** X14: with a limit that is not negative, [truncate_text] returns the text
    itself when it fits, and otherwise its first [max_length] characters
    followed by three dots and nothing else: the result has at most
    [max_length + 3] characters, agrees with the text on the first
    [max_length], and what comes after them is the three dots.  A text one or
    two characters over the limit comes back longer than it was. *)
Theorem truncate_text_bound {char : Type} (dot : char) (text : list char)
    (max_length : Z) :
  0 <= max_length ->
  let r := truncate_text dot text max_length in
  Z.of_nat (List.length r) <= Z.max (Z.of_nat (List.length text)) (max_length + 3)
  /\ Z.of_nat (List.length r) <= max_length + 3
  /\ firstn (Z.to_nat max_length) r = firstn (Z.to_nat max_length) text
  /\ (Z.of_nat (List.length text) <= max_length -> r = text)
  /\ (max_length < Z.of_nat (List.length text) ->
      skipn (Z.to_nat max_length) r = [dot; dot; dot]
      /\ Z.of_nat (List.length r) = max_length + 3).
Proof.
  intros M r. subst r. unfold truncate_text, slice_to.
  destruct (Z.of_nat (List.length text) <=? max_length) eqn:L.
  - apply Z.leb_le in L. repeat split; try lia; auto.
  - apply Z.leb_gt in L.
    replace (0 <=? max_length) with true by (symmetry; apply Z.leb_le; lia).
    assert (F : List.length (firstn (Z.to_nat max_length) text)
                = Z.to_nat max_length).
    { apply firstn_length_le. lia. }
    rewrite length_app, F. simpl List.length.
    split; [lia|]. split; [lia|]. split; [|split; [lia|]].
    + rewrite firstn_app, F, Nat.sub_diag. simpl.
      rewrite List.app_nil_r. rewrite firstn_firstn. f_equal. lia.
    + intros _. split; [|lia].
      rewrite skipn_app, F, Nat.sub_diag. simpl skipn at 2.
      rewrite <- F at 1. rewrite skipn_all. reflexivity.
Qed.

(** X15: for a positive page size, [pages] is the number of pages needed
    for [total] items (the least [n] with [n * size >= total]), [has_next] is
    true exactly on the pages before the last, and [has_prev] exactly after
    the first; a page size of zero raises. *)
Theorem create_pagination_response_pages (total page size : Z) :
  0 < size ->
  exists r,
    create_pagination_response total page size = Some r
    /\ total <= pages r * size
    /\ (pages r - 1) * size < total
    /\ (has_next r = true <-> page < pages r)
    /\ (has_prev r = true <-> 1 < page).
Proof.
  intro S. unfold create_pagination_response.
  replace (size =? 0) with false by (symmetry; apply Z.eqb_neq; lia).
  eexists. split; [reflexivity|]. simpl.
  pose proof (Z.div_mod (total + size - 1) size ltac:(lia)) as D.
  pose proof (Z.mod_pos_bound (total + size - 1) size S) as B.
  set (q := (total + size - 1) / size) in *.
  rewrite !Z.ltb_lt.
  repeat split; try nia.
Qed.

(** X16: when the birth date is not after today, [calculate_age] is the
    number of birthdays that have passed: it is not negative, the birthday
    of that age is today or earlier, and the next one is still to come. *)
Theorem calculate_age_birthdays (today birth_date : datetime) :
  let y := Z.of_nat (year birth_date) in
  let m := Z.of_nat (month birth_date) in
  let d := Z.of_nat (day birth_date) in
  let ty := Z.of_nat (year today) in
  let tm := Z.of_nat (month today) in
  let td := Z.of_nat (day today) in
  date_le y m d ty tm td ->
  let age := calculate_age today birth_date in
  0 <= age
  /\ date_le (y + age) m d ty tm td
  /\ date_lt ty tm td (y + age + 1) m d.
Proof.
  intros y m d ty tm td H age. subst age. unfold calculate_age.
  unfold date_le, date_lt in *.
  destruct (Nat.ltb_spec (month today) (month birth_date));
    destruct (Nat.eqb_spec (month today) (month birth_date));
    destruct (Nat.ltb_spec (day today) (day birth_date));
    simpl; subst y m d ty tm td; lia.
Qed.

(** ** More on the entry-payload codec and on [validate_weight] *)

Lemma pydict_member_get (d : list (pyval * pyval)) (key : string) :
  existsb (fun kv => key_eqb (fst kv) (PStr key)) d = true
  <-> pydict_get d (PStr key) <> None.
Proof.
  induction d as [|[k v] d IH]; simpl.
  - split; [discriminate|congruence].
  - destruct (key_eqb k (PStr key)); simpl; [|exact IH].
    split; [discriminate|reflexivity].
Qed.

Lemma key_eqb_str (t : pyval) (s : string) :
  key_eqb t (PStr s) = true <-> t = PStr s.
Proof.
  destruct t; simpl; try (split; [discriminate|congruence]).
  rewrite String.eqb_eq. split; congruence.
Qed.

(** X17: on an input that evaluates to a dict, the decoder returns that dict
    exactly when the four required keys are among its keys and the value
    under [type] is the string [dogrun_entry]; in every other case it
    returns the invalid result.  The values under the other keys are not
    looked at. *)
Theorem validate_qr_code_data_accepts (data : string)
    (d : list (pyval * pyval)) :
  literal_eval data = Returns (PDict d) ->
  (validate_qr_code_data data = Returns (Some (PDict d))
   <-> (forall k, In k required_keys -> pydict_get d (PStr k) <> None)
       /\ pydict_get d (PStr "type") = Some (PStr "dogrun_entry"))
  /\ (validate_qr_code_data data <> Returns (Some (PDict d)) ->
      validate_qr_code_data data = Returns None).
Proof.
  intro H. split.
  - unfold validate_qr_code_data. rewrite H.
    unfold all_in, required_keys, contains.
    pose proof (pydict_member_get d "user_id") as K1.
    pose proof (pydict_member_get d "dog_ids") as K2.
    pose proof (pydict_member_get d "timestamp") as K3.
    pose proof (pydict_member_get d "type") as K4.
    destruct (existsb (fun kv => key_eqb (fst kv) (PStr "user_id")) d);
      [|split; [discriminate|]; intros [A _];
        assert (X : false = true) by (apply K1; apply A; simpl; auto 6);
        discriminate X].
    destruct (existsb (fun kv => key_eqb (fst kv) (PStr "dog_ids")) d);
      [|split; [discriminate|]; intros [A _];
        assert (X : false = true) by (apply K2; apply A; simpl; auto 6);
        discriminate X].
    destruct (existsb (fun kv => key_eqb (fst kv) (PStr "timestamp")) d);
      [|split; [discriminate|]; intros [A _];
        assert (X : false = true) by (apply K3; apply A; simpl; auto 6);
        discriminate X].
    destruct (existsb (fun kv => key_eqb (fst kv) (PStr "type")) d);
      [|split; [discriminate|]; intros [A _];
        assert (X : false = true) by (apply K4; apply A; simpl; auto 6);
        discriminate X].
    unfold getitem.
    destruct (pydict_get d (PStr "type")) as [t|] eqn:T.
    + destruct (key_eqb t (PStr "dogrun_entry")) eqn:E; simpl.
      * apply key_eqb_str in E. subst t. split; [|reflexivity].
        intros _. split; [|reflexivity].
        intros k [<-|[<-|[<-|[<-|[]]]]];
          [apply K1|apply K2|apply K3|rewrite T; discriminate]; reflexivity.
      * split; [discriminate|]. intros [_ [= ->]].
        vm_compute in E. discriminate E.
    + exfalso. apply (proj1 K4); reflexivity.
  - intro N. destruct (validate_qr_code_data_dict data d H); congruence.
Qed.

Lemma validate_qr_code_data_accepts_witness :
  let data := "{'user_id': 'x', 'dog_ids': None, 'timestamp': 0, 'type': 'dogrun_entry'}" in
  let d := [(PStr "user_id", PStr "x"); (PStr "dog_ids", PNone);
            (PStr "timestamp", PInt 0); (PStr "type", PStr "dogrun_entry")] in
  literal_eval data = Returns (PDict d)
  /\ validate_qr_code_data data = Returns (Some (PDict d)).
Proof.
  intros data d.
  assert (H : literal_eval data = Returns (PDict d)) by reflexivity.
  split; [exact H|].
  apply (proj1 (validate_qr_code_data_accepts data d H)).
  split; [|reflexivity].
  intros k [<-|[<-|[<-|[<-|[]]]]]; discriminate.
Defined.

Lemma map_PInt_inj (l1 l2 : list Z) : map PInt l1 = map PInt l2 -> l1 = l2.
Proof.
  revert l2. induction l1 as [|x l1 IH]; destruct l2 as [|y l2]; simpl;
    try discriminate; [reflexivity|].
  intros [= -> E]. rewrite (IH l2 E). reflexivity.
Qed.

Lemma generate_qr_code_data_returns (user_id : Z) (dog_ids : list Z)
    (now : datetime) (data : string) :
  generate_qr_code_data user_id dog_ids now = Returns data ->
  all_convertible user_id dog_ids = true
  /\ data = entry_payload_text user_id dog_ids now.
Proof.
  rewrite generate_qr_code_data_outcome.
  destruct (all_convertible user_id dog_ids); [|discriminate].
  intros [= <-]. split; reflexivity.
Qed.

(** X18: the encoder is injective: two payload texts that are equal were
    written for the same user identifier, the same list of dog identifiers
    and the same time text. *)
Theorem generate_qr_code_data_injective (u1 u2 : Z) (l1 l2 : list Z)
    (t1 t2 : datetime) (data : string) :
  generate_qr_code_data u1 l1 t1 = Returns data ->
  generate_qr_code_data u2 l2 t2 = Returns data ->
  u1 = u2 /\ l1 = l2 /\ isoformat t1 = isoformat t2.
Proof.
  intros H1 H2.
  apply generate_qr_code_data_returns in H1. destruct H1 as [C1 D1].
  apply generate_qr_code_data_returns in H2. destruct H2 as [C2 D2].
  pose proof (literal_eval_entry_payload u1 l1 t1 C1) as E1.
  pose proof (literal_eval_entry_payload u2 l2 t2 C2) as E2.
  rewrite <- D1 in E1. rewrite <- D2, E1 in E2. unfold entry_payload in E2.
  injection E2 as A B C. apply map_PInt_inj in B. auto.
Qed.

Lemma generate_qr_code_data_injective_witness :
  let t := mkDatetime 2024 1 2 3 4 5 0 in
  let data := "{'user_id': 7, 'dog_ids': [1, 2], 'timestamp': '2024-01-02T03:04:05', 'type': 'dogrun_entry'}" in
  generate_qr_code_data 7 [1; 2] t = Returns data
  /\ 7 = 7 /\ [1; 2] = [1; 2] /\ isoformat t = isoformat t.
Proof.
  intros t data.
  assert (H : generate_qr_code_data 7 [1; 2] t = Returns data) by reflexivity.
  split; [exact H|].
  exact (generate_qr_code_data_injective 7 7 [1; 2] [1; 2] t t data H H).
Defined.

Lemma remove_kg_suffix (s : string) : remove_kg (s ++ "kg") = remove_kg s.
Proof.
  induction s as [| c | c c' r IH1 IH2] using string_pair_ind.
  - reflexivity.
  - simpl append. rewrite remove_kg_step.
    replace (Ascii.eqb c "k" && Ascii.eqb "k" "g") with false
      by (rewrite andb_false_r; reflexivity).
    reflexivity.
  - simpl append. rewrite !remove_kg_step.
    destruct (Ascii.eqb c "k" && Ascii.eqb c' "g"); [exact IH1|].
    simpl append in IH2. rewrite IH2. reflexivity.
Qed.

(** X19: the unit is optional: a weight with [kg] written after it is
    judged as the same text without it. *)
Theorem validate_weight_unit_optional (s : string) :
  validate_weight (s ++ "kg") = validate_weight s.
Proof. unfold validate_weight. rewrite remove_kg_suffix. reflexivity. Qed.

(** X20: whatever [validate_weight] accepts was read as a finite number
    above zero: not-a-number, the infinities, zero and every negative number
    are rejected. *)
Theorem validate_weight_positive (s : string) :
  validate_weight s = Returns true ->
  exists negative m e,
    float_of_string (remove_kg s) = Returns (FFinite negative m e)
    /\ 0 < signed_significand negative m.
Proof.
  unfold validate_weight.
  destruct (float_of_string (remove_kg s)) as [v|x|] eqn:F;
    [|destruct x; discriminate|discriminate].
  intro R.
  assert (H : float_leb float_0_1 v && float_leb v float_100_0 = true)
    by congruence.
  clear R. apply andb_true_iff in H. destruct H as [A B].
  rewrite float_0_1_value in A.
  destruct v as [|n|n m e]; try discriminate A.
  - destruct n; simpl in *; discriminate.
  - exists n, m, e. split; [reflexivity|].
    unfold float_leb in A. apply Z.leb_le in A.
    set (k := Z.min (-56) e) in *.
    assert (P1 : 0 < 2 ^ (-56 - k)) by (apply Z.pow_pos_nonneg; lia).
    assert (P2 : 0 < 2 ^ (e - k)) by (apply Z.pow_pos_nonneg; lia).
    simpl signed_significand in A at 1. nia.
Qed.

Lemma validate_weight_positive_witness :
  validate_weight "5kg" = Returns true
  /\ exists negative m e,
       float_of_string (remove_kg "5kg") = Returns (FFinite negative m e)
       /\ 0 < signed_significand negative m.
Proof.
  split; [vm_compute; reflexivity|].
  apply (validate_weight_positive "5kg"). vm_compute. reflexivity.
Defined.

(** ** The further properties on concrete inputs *)

Lemma handlers_without_test_user_witness :
  let w := request_world Reference.empty_db [] 0 in
  find (email_is "test@example.com") (users (store w)) = None
  /\ get_current_user Reference.pwd_hash w
     = (Raise (TypeError "'user_name' is an invalid keyword argument for User"),
        w).
Proof.
  intro w. split; [reflexivity|].
  exact (proj1 (handlers_without_test_user Reference.pwd_hash w None eq_refl)).
Defined.

Lemma likes_accumulate_witness :
  find (email_is "test@example.com") (users Reference.sample_db)
  = Some Reference.test_user
  /\ NoDup (map Post_id (posts Reference.sample_db))
  /\ likes_of Reference.sample_db 1 = Some 0
  /\ likes_of (after_likes Reference.pwd_hash 5 1 100 Reference.sample_db) 1
     = Some (0 + Z.of_nat 5).
Proof.
  assert (ND : NoDup (map Post_id (posts Reference.sample_db))).
  { simpl. constructor; [intros []|constructor]. }
  split; [reflexivity|]. split; [exact ND|]. split; [reflexivity|].
  exact (likes_accumulate Reference.pwd_hash 5 Reference.sample_db 1 100
           Reference.test_user 0 eq_refl ND eq_refl).
Defined.

Lemma like_post_commit_failure_witness :
  let r := like_post Reference.pwd_hash None 1
             (request_world Reference.sample_db [true] 50) in
  find (email_is "test@example.com") (users Reference.sample_db)
  = Some Reference.test_user
  /\ find (fun p => Post_id p =? 1) (posts Reference.sample_db)
     = Some Reference.first_post
  /\ fst r = Raise OperationalError
  /\ store (snd r) = Reference.sample_db.
Proof.
  intro r. split; [reflexivity|]. split; [reflexivity|].
  exact (like_post_commit_failure Reference.pwd_hash None 1 Reference.sample_db
           [] 50 Reference.test_user Reference.first_post eq_refl eq_refl).
Defined.

Lemma update_user_profile_idempotent_witness :
  let request := mkUpdateUserProfileRequest "New Name" "Imabari 7" "0900" "no" in
  let db1 := store (snd (update_user_profile Reference.pwd_hash None request
                           (request_world Reference.sample_db [] 99))) in
  find (email_is "test@example.com") (users Reference.sample_db)
  = Some Reference.test_user
  /\ NoDup (map User_id (users Reference.sample_db))
  /\ store (snd (update_user_profile Reference.pwd_hash None request
                   (request_world db1 [] 200))) = db1.
Proof.
  intros request db1.
  assert (ND : NoDup (map User_id (users Reference.sample_db))).
  { simpl. constructor; [intros [H|[]]; discriminate H|].
    constructor; [intros []|constructor]. }
  split; [reflexivity|]. split; [exact ND|].
  exact (update_user_profile_idempotent Reference.pwd_hash None None request
           Reference.sample_db [] 99 200 Reference.test_user eq_refl ND).
Defined.

Lemma add_dog_appends_witness :
  let request := mkAddDogRequest "Pochi" "柴犬" "8kg" ["calm"] "2024-01-01" 2020 in
  let r := add_dog Reference.pwd_hash None request
             (request_world Reference.sample_db [] 77) in
  find (email_is "test@example.com") (users Reference.sample_db)
  = Some Reference.test_user
  /\ commit_succeeds []
  /\ NoDup (map Dog_id (dogs Reference.sample_db))
  /\ dogs (store (snd r)) = [added_dog request 1 1 77].
Proof.
  intros request r.
  split; [reflexivity|]. split; [reflexivity|]. split; [constructor|].
  exact (proj1 (proj2 (add_dog_appends Reference.pwd_hash None request
                         Reference.sample_db [] 77 Reference.test_user
                         eq_refl eq_refl (NoDup_nil Z)))).
Defined.

Lemma get_user_dogs_after_add_dog_witness :
  let request := mkAddDogRequest "Pochi" "柴犬" "8kg" ["calm"] "2024-01-01" 2020 in
  let r := add_dog Reference.pwd_hash None request
             (request_world Reference.sample_db [] 77) in
  find (email_is "test@example.com") (users Reference.sample_db)
  = Some Reference.test_user
  /\ fst (get_user_dogs Reference.pwd_hash None
            (request_world Reference.sample_db [] 77)) = Ok []
  /\ exists added,
       fst r = Ok added
       /\ fst (get_user_dogs Reference.pwd_hash None
                 (request_world (store (snd r)) [] 80))
          = Ok ([] ++ [added])%list.
Proof.
  intros request r. split; [reflexivity|]. split; [reflexivity|].
  exact (get_user_dogs_after_add_dog Reference.pwd_hash None None request
           Reference.sample_db [] 77 80 Reference.test_user [] eq_refl eq_refl).
Defined.

Lemma validate_password_accepts_witness :
  is_ascii "abc12345" = true
  /\ validate_password Config.settings "abc12345" = Returns true
  /\ validate_password Config.settings "12345678" = Returns false.
Proof.
  split; [reflexivity|].
  split.
  - apply (proj1 (validate_password_accepts Config.settings "abc12345" eq_refl)).
    split; [vm_compute; discriminate|].
    split; [exists "1"%char|exists "a"%char]; split; simpl; auto 10.
  - exact (proj1 (proj2 (validate_password_accepts Config.settings "12345678"
                           eq_refl)) eq_refl).
Defined.

Lemma sanitize_filename_safe_witness :
  is_ascii "../../etc/passwd" = true
  /\ exists r,
       sanitize_filename "../../etc/passwd" = Returns r
       /\ has_dot_dot r = false
       /\ contains_char "/" r = false
       /\ contains_char "\" r = false
       /\ all_chars filename_char r = true.
Proof.
  split; [reflexivity|].
  exact (sanitize_filename_safe "../../etc/passwd" eq_refl).
Defined.

Lemma truncate_text_bound_witness :
  let text := list_ascii_of_string "hello" in
  let r := truncate_text "."%char text 4 in
  0 <= 4
  /\ firstn 4 r = firstn 4 text
  /\ skipn 4 r = ["."; "."; "."]%char
  /\ Z.of_nat (List.length r) = 4 + 3.
Proof.
  intros text r.
  assert (P : 0 <= 4) by lia.
  split; [exact P|].
  destruct (truncate_text_bound "."%char text 4 P) as [_ [_ [F [_ L]]]].
  split; [exact F|]. apply L. simpl. lia.
Defined.

Lemma create_pagination_response_pages_witness :
  0 < 3
  /\ exists r,
       create_pagination_response 10 4 3 = Some r
       /\ 10 <= pages r * 3
       /\ (pages r - 1) * 3 < 10
       /\ (has_next r = true <-> 4 < pages r)
       /\ (has_prev r = true <-> 1 < 4).
Proof.
  assert (P : 0 < 3) by lia.
  split; [exact P|]. exact (create_pagination_response_pages 10 4 3 P).
Defined.

Lemma calculate_age_birthdays_witness :
  let today := mkDatetime 2024 5 9 0 0 0 0 in
  let birth := mkDatetime 2020 5 10 0 0 0 0 in
  let age := calculate_age today birth in
  date_le 2020 5 10 2024 5 9
  /\ 0 <= age
  /\ date_le (2020 + age) 5 10 2024 5 9
  /\ date_lt 2024 5 9 (2020 + age + 1) 5 10.
Proof.
  intros today birth age.
  assert (H : date_le 2020 5 10 2024 5 9) by (left; lia).
  split; [exact H|].
  exact (calculate_age_birthdays today birth H).
Defined.
